(** * KeySearch: coordinator/worker indexing core

    A shallow embedding of the Python sources
      backend/coordinator/app/fuse.py        (merge_partial_index)
      backend/coordinator/app/task_queue.py  (get_least_loaded_worker,
                                              push_task_to_queue,
                                              get_publisher_redis_client)
      backend/coordinator/app/main.py        (the endpoints and the
                                              pub/sub message handler)
      backend/worker/worker.py               (calculate_tf,
                                              process_document_task)
      backend/shared/text_utils.py           (normalize_text)
    and the properties of the specification checked against them.

    Python dicts that are used as maps are [gmap]s (equality of dicts is
    independent of insertion order, as is equality of [gmap]s); the places
    where Python's iteration order is observable (the stable sorts) work on
    the list of items. *)

From Stdlib Require Import ZArith QArith Ascii String List Sorted Permutation.
From stdpp Require Import base option list strings gmap fin_maps fin_sets sorting.

Local Set Warnings "-register-all".
Local Open Scope string_scope.
Local Open Scope list_scope.
Local Open Scope Z_scope.

(** ** Python values

    The values that [json.loads] produces, as far as the code inspects
    them.  Floats carry the rational they denote. *)

Inductive pyval :=
| PyNone
| PyBool (b : bool)
| PyInt (z : Z)
| PyFloat (q : Q)
| PyStr (s : string)
| PyList (l : list pyval)
| PyDict (d : gmap string pyval).

(** [isinstance(v, int)]: [bool] is a subclass of [int] in Python, and
    [True == 1], [False == 0].  [as_int v] is the integer an [int] instance
    stands for, [None] when [v] is not an [int] instance. *)
Definition as_int (v : pyval) : option Z :=
  match v with
  | PyInt z => Some z
  | PyBool b => Some (Z.b2z b)
  | _ => None
  end.

(** [isinstance(v, dict)] *)
Definition as_dict (v : pyval) : option (gmap string pyval) :=
  match v with
  | PyDict d => Some d
  | _ => None
  end.

(** ** The Fuser: fuse.py *)

Module Fuse.

(** The global inverted index, [Dict[str, Dict[str, int]]]. *)
Abbreviation index := (gmap string (gmap string Z)).

(** The frequency the loop body of [merge_partial_index] accepts for one
    [(term, doc_freq_map)] item: the three [continue] guards in their order.
    [None] is "skip this term". *)
Definition accepted_frequency (doc_id_processed : string) (doc_freq_map : pyval)
  : option Z :=
  match as_dict doc_freq_map with
  | None => None                                   (* not isinstance(.., dict) *)
  | Some m =>
      match m !! doc_id_processed with
      | None => None                               (* doc_id not in doc_freq_map *)
      | Some frequency =>
          match as_int frequency with
          | None => None                           (* not isinstance(.., int) *)
          | Some f => if f <? 0 then None else Some f
          end
      end
  end.

(** One iteration of the [for term, doc_freq_map in ....items()] loop. *)
Definition merge_term (doc_id_processed : string) (global_index : index)
    (item : string * pyval) : index :=
  let '(term, doc_freq_map) := item in
  match accepted_frequency doc_id_processed doc_freq_map with
  | None => global_index
  | Some frequency =>
      (* if term not in global_index: global_index[term] = {} *)
      let g1 := match global_index !! term with
                | Some _ => global_index
                | None => <[term := ∅]> global_index
                end in
      (* global_index[term][doc_id_processed] = frequency *)
      match g1 !! term with
      | Some inner => <[term := <[doc_id_processed := frequency]> inner]> g1
      | None => g1
      end
  end.

(** The loop over the items of the partial index, in iteration order. *)
Definition merge_items (doc_id_processed : string) (items : list (string * pyval))
    (global_index : index) : index :=
  foldl (merge_term doc_id_processed) global_index items.

(** [merge_partial_index(global_index, partial_index_from_worker,
    doc_id_processed, lock)]: the lock is taken for the whole loop, so the
    call is one atomic update of the index. *)
Definition merge_partial_index (global_index : index)
    (partial_index_from_worker : gmap string pyval) (doc_id_processed : string)
  : index :=
  merge_items doc_id_processed (map_to_list partial_index_from_worker) global_index.

(** [global_index[term][doc_id]], [None] when either key is missing. *)
Definition entry (g : index) (term doc_id : string) : option Z :=
  g !! term ≫= (.!! doc_id).

End Fuse.

(** ** Python's stable sorts

    [list.sort] and [sorted] are stable and compare with [<] only.  The
    model is the stable insertion sort: [before a b] says that [a] has to
    come strictly before [b]; an element is moved past those that are
    strictly before it and past nothing else, so elements that compare equal
    keep their order of arrival. *)

Module PySort.
Section stable_sort.
Context {A : Type} (before : A → A → bool).

Fixpoint insert (x : A) (l : list A) : list A :=
  match l with
  | [] => [x]
  | y :: l' => if before y x then y :: insert x l' else x :: y :: l'
  end.

Definition sort (l : list A) : list A := foldr insert [] l.

End stable_sort.
End PySort.

(** ** Exceptions and results *)

Inductive exn :=
| ConnectionError            (* redis.exceptions.ConnectionError *)
| RedisError                 (* another redis.exceptions.RedisError *)
| HTTPException (status_code : Z)
| ValueError
| OtherException.

(** [redis.exceptions.ConnectionError] is a subclass of [RedisError]. *)
Definition is_RedisError (e : exn) : bool :=
  match e with
  | ConnectionError | RedisError => true
  | _ => false
  end.

Inductive result (A : Type) :=
| Ok (a : A)
| Raise (e : exn).
Arguments Ok {A} a.
Arguments Raise {A} e.

(** ** What the code takes from Python and NLTK

    The string built-ins ([str.lower], [str.strip], [str.isalpha],
    [float]), the compiled pattern [\b\w+\b], the NLTK stop word lists and
    stemmers, and the decoding of a task are not code of the repository;
    the embedding is parametric in them.  A float is the rational it
    denotes: the cpu and ram percentages that the workers report are finite,
    and [nan] and the infinities, which [float] also reads, are left out. *)

(** [json.loads(task_data_json)] followed by the reads of ['doc_id'],
    ['content'] and [.get('language')], over the tasks whose fields are
    strings, the shape [DocumentTask.model_dump_json()] gives them. *)
Inductive decoded_task :=
| TaskNotJson                (* json.JSONDecodeError *)
| TaskKeyError               (* 'doc_id' or 'content' missing *)
| TaskData (doc_id content : string) (language : option string).

Class PyEnv := {
  py_lower : string → string;
  py_strip : string → string;
  py_isalpha : string → bool;
  py_float : string → option Q;          (* [None]: ValueError *)
  tok_findall : string → list string;    (* _TOK_PATTERN.findall *)
  stopwords_english : gset string;
  stopwords_spanish : gset string;
  stem_english : string → string;        (* PorterStemmer().stem *)
  stem_spanish : string → string;        (* SnowballStemmer("spanish").stem *)
  decode_task : string → decoded_task;
}.

(** ** text_utils.py *)

Module TextUtils.
Section normalize.
Context {py : PyEnv}.

(** [_STOPWORDS.get(language, _STOPWORDS["english"])] *)
Definition current_stopwords (language : string) : gset string :=
  if decide (language = "english") then stopwords_english
  else if decide (language = "spanish") then stopwords_spanish
  else stopwords_english.

(** [_STEMMERS.get(language, _STEMMERS["english"])] *)
Definition current_stemmer (language : string) : string → string :=
  if decide (language = "english") then stem_english
  else if decide (language = "spanish") then stem_spanish
  else stem_english.

Definition normalize_text (text language : string) : list string :=
  let text := py_lower text in
  let tokens := tok_findall text in
  let filtered_tokens :=
    filter (λ token, (token ∉ current_stopwords language) ∧ (py_isalpha token = true))
           tokens in
  map (current_stemmer language) filtered_tokens.

End normalize.
End TextUtils.

(** ** worker.py *)

Module Worker.

(** One iteration of the loop of [calculate_tf].  The two subscripts of
    [tf_map[token][doc_id] += 1] raise [KeyError] on a missing key: [None]. *)
Definition tf_step (doc_id : string) (tf_map : gmap string (gmap string Z))
    (token : string) : option (gmap string (gmap string Z)) :=
  let tf_map1 := match tf_map !! token with
                 | Some _ => tf_map
                 | None => <[token := {[doc_id := 0]}]> tf_map
                 end in
  inner ← tf_map1 !! token;
  count ← inner !! doc_id;
  Some (<[token := <[doc_id := count + 1]> inner]> tf_map1).

Fixpoint tf_loop (doc_id : string) (tokens : list string)
    (tf_map : gmap string (gmap string Z)) : option (gmap string (gmap string Z)) :=
  match tokens with
  | [] => Some tf_map
  | token :: rest => tf_map' ← tf_step doc_id tf_map token; tf_loop doc_id rest tf_map'
  end.

Definition calculate_tf (tokens : list string) (doc_id : string)
  : option (gmap string (gmap string Z)) :=
  match tokens with
  | [] => Some ∅                          (* if not tokens: return tf_map *)
  | _ => tf_loop doc_id tokens ∅
  end.

(** The record published on the results channel. *)
Record result_payload := {
  payload_worker_id : string;
  payload_doc_id : string;
  payload_partial_index : gmap string (gmap string Z);
  payload_language : string;
}.

(** The worker's view of the broker while it handles one task. *)
Record worker_redis := {
  connect_ok : bool;      (* get_redis_client() succeeds *)
  publish_ok : bool;      (* r_client.publish does not raise *)
}.

Section process.
Context {py : PyEnv}.

(** [process_document_task(task_data_json)]: the list of the records it
    publishes on the results channel (none or one).  Every [except]
    branch logs and falls off the end of the function.  [WORKER_ID] is the
    host name and process id that the payload carries. *)
Definition process_document_task (redis : worker_redis)
    (PROCESSING_LANGUAGE WORKER_ID : string) (task_data_json : string)
  : list result_payload :=
  if negb (connect_ok redis) then []
  else
    match decode_task task_data_json with
    | TaskNotJson => []
    | TaskKeyError => []
    | TaskData doc_id content language =>
        let language_to_use := default PROCESSING_LANGUAGE language in
        let processed_tokens := TextUtils.normalize_text content language_to_use in
        match processed_tokens with
        | [] => []                      (* if not processed_tokens: return *)
        | _ =>
            match calculate_tf processed_tokens doc_id with
            | None => []                (* KeyError, caught and logged *)
            | Some partial_index =>
                if publish_ok redis then
                  [ {| payload_worker_id := WORKER_ID;
                       payload_doc_id := doc_id;
                       payload_partial_index := partial_index;
                       payload_language := language_to_use |} ]
                else []                 (* RedisError, caught and logged *)
            end
        end
    end.

End process.
End Worker.

(** ** models.py *)

Record DocumentTask := {
  task_doc_id : string;
  task_content : string;
}.

Record PartialIndexData := {
  data_worker_id : string;
  data_doc_id : string;
  data_partial_index : gmap string pyval;
}.

Record WorkerStatus := {
  ws_worker_id : string;
  ws_cpu_percent : option Q;
  ws_ram_percent : option Q;
  ws_status_ttl_seconds : option Z;
  ws_queue_length : option Z;
}.

(** ** The broker, as the coordinator's calls observe it *)

(** One key [worker_status:<worker_id>]: the part of the key after the
    first colon, what [ttl] answers for it, and the [cpu] and [ram] fields
    of its hash. *)
Record status_key := {
  key_worker_id : string;
  key_ttl : Z;
  key_cpu : option string;
  key_ram : option string;
}.

Record broker := {
  reachable : bool;                        (* a connection can be made *)
  status_keys : list status_key;           (* keys("worker_status:*"), in the order of the reply *)
  queues : gmap string (list DocumentTask);  (* the task lists, by name *)
}.

(** [llen]: a missing list has length 0. *)
Definition llen (b : broker) (name : string) : Z :=
  Z.of_nat (length (default [] (queues b !! name))).

(** [rpush]: the new length, and the broker after the push. *)
Definition rpush (b : broker) (name : string) (t : DocumentTask) : Z * broker :=
  let q := default [] (queues b !! name) ++ [t] in
  (Z.of_nat (length q),
   {| reachable := reachable b; status_keys := status_keys b;
      queues := <[name := q]> (queues b) |}).

(** ** task_queue.py *)

Module TaskQueue.

Definition TASK_QUEUE_PREFIX : string := "doc_processing_tasks".

(** A [redis.Redis] object; it is truthy. *)
Inductive redis_client := RedisClient.

Definition client_truthy (c : redis_client) : bool := true.

(** [get_publisher_redis_client()], given the module-level
    [_publisher_redis_client]: the result and the new value of the global.
    [ping()] answers [True] or raises [ConnectionError]; the [ping()] of the
    [if] is outside the [try], the one after the constructor is inside. *)
Definition get_publisher_redis_client (b : broker) (cached : option redis_client)
  : result redis_client * option redis_client :=
  match cached with
  | Some c =>
      if reachable b then (Ok c, Some c)
      else (Raise ConnectionError, Some c)
  | None =>
      if reachable b then (Ok RedisClient, Some RedisClient)
      else (Raise ConnectionError, None)   (* reset on failure; re-raise *)
  end.

(** A tuple [(worker_id, queue_length, load_metric)].  [llen] answers an
    integer, so the branch that replaces a missing queue length by
    [float('inf')] is never taken. *)
Record candidate := {
  worker_id : string;
  queue_length : Z;
  load_metric : Q;
}.

(** [(x[1], x[2]) < (y[1], y[2])] on tuples: the first components that
    differ decide. *)
Definition key_lt (x y : candidate) : bool :=
  if (queue_length x =? queue_length y)%Z
  then match (load_metric x ?= load_metric y)%Q with Lt => true | _ => false end
  else (queue_length x <? queue_length y)%Z.

Section dispatcher.
Context {py : PyEnv}.

(** The [try] block that reads [cpu] and [ram]: a missing field is 100.0,
    and a [ValueError] from either [float] sets both to 100.0. *)
Definition read_load (cpu_str ram_str : option string) : Q * Q :=
  let parse (o : option string) : option Q :=
    match o with
    | None => Some (100 # 1)
    | Some s => py_float s
    end in
  match parse cpu_str with
  | None => (100 # 1, 100 # 1)
  | Some cpu =>
      match parse ram_str with
      | None => (100 # 1, 100 # 1)
      | Some ram => (cpu, ram)
      end
  end.

(** The body of the loop over the keys: [None] is [continue]. *)
Definition candidate_of_key (b : broker) (k : status_key) : option candidate :=
  if ((key_ttl k <? 0) && negb (key_ttl k =? -1))%Z then None
  else
    let '(cpu, ram) := read_load (key_cpu k) (key_ram k) in
    Some {| worker_id := key_worker_id k;
            queue_length := llen b (TASK_QUEUE_PREFIX +:+ ":" +:+ key_worker_id k);
            load_metric := (cpu + ram)%Q |}.

Definition candidate_workers (b : broker) : list candidate :=
  omap (candidate_of_key b) (status_keys b).

(** Lines 99 to 108: [None] without candidates, else sort with the key
    [(x[1], x[2])] and take the head. *)
Definition select_worker (candidates : list candidate) : option string :=
  match candidates with
  | [] => None
  | _ => worker_id <$> head (PySort.sort key_lt candidates)
  end.

Definition get_least_loaded_worker (b : broker) : option string :=
  match status_keys b with
  | [] => None
  | _ => select_worker (candidate_workers b)
  end.

(** [push_task_to_queue(doc_task)]: what it returns, the broker and the
    cached client afterwards.  Every exception ends in [return None]; a
    [RedisError] also resets the cached client. *)
Definition push_task_to_queue (b : broker) (cached : option redis_client)
    (doc_task : DocumentTask) : option Z * broker * option redis_client :=
  match get_publisher_redis_client b cached with
  | (Raise e, cached') =>
      (None, b, if is_RedisError e then None else cached')
  | (Ok r_client, cached') =>
      if negb (client_truthy r_client) then (None, b, cached')
      else
        match get_least_loaded_worker b with
        | None => (None, b, cached')
        | Some worker_id =>
            if decide (worker_id = "") then (None, b, cached')   (* not worker_id *)
            else
              let queue_name := TASK_QUEUE_PREFIX +:+ ":" +:+ worker_id in
              let '(n, b') := rpush b queue_name doc_task in
              (Some n, b', cached')
        end
  end.

End dispatcher.
End TaskQueue.

(** ** main.py *)

Module Main.

(** The module-level state that [index_lock] guards. *)
Record coordinator := {
  global_inverted_index : Fuse.index;
  dispatched_docs_pending_results : gset string;
}.

(** [handle_partial_index_message(data)]: the merge, then, in a second
    critical section, the removal of the document from the pending set
    (removing an absent element of a [gset] is the [else] branch, which only
    logs). *)
Definition handle_partial_index_message (data : PartialIndexData) (st : coordinator)
  : coordinator :=
  let g := Fuse.merge_partial_index (global_inverted_index st)
             (data_partial_index data) (data_doc_id data) in
  {| global_inverted_index := g;
     dispatched_docs_pending_results :=
       if decide (data_doc_id data ∈ dispatched_docs_pending_results st)
       then dispatched_docs_pending_results st ∖ {[ data_doc_id data ]}
       else dispatched_docs_pending_results st |}.

(** The record a worker publishes, as the listener hands it to the handler
    after [json.loads] and the validation by the [PartialIndexData] model. *)
Definition received (m : Worker.result_payload) : PartialIndexData :=
  {| data_worker_id := Worker.payload_worker_id m;
     data_doc_id := Worker.payload_doc_id m;
     data_partial_index :=
       (λ inner : gmap string Z, PyDict (PyInt <$> inner))
         <$> Worker.payload_partial_index m |}.

(** The listener thread over the messages of the channel, in order. *)
Definition deliver (messages : list Worker.result_payload) (st : coordinator)
  : coordinator :=
  foldl (λ st m, handle_partial_index_message (received m) st) st messages.

(** *** /trigger-local-indexing/ *)

(** What [open(...).read()] gives for a file of the directory. *)
Inductive file_read :=
| ReadFails                  (* OSError, UnicodeDecodeError, ... *)
| Content (content_str : string).

Inductive failure :=
| SkippedEmpty               (* "Skipped: File is empty or whitespace only" *)
| PushFailed                 (* "Failed to push to Redis queue" *)
| ErrorReading.              (* "Error reading or dispatching: ..." *)

(** The variables of the endpoint that the loop updates, with the state of
    the coordinator, the broker and the cached client. *)
Record indexing_run := {
  run_coordinator : coordinator;
  run_broker : broker;
  run_client : option TaskQueue.redis_client;
  tasks_dispatched_count : Z;
  successful_files : list string;
  failed_files_details : list (string * failure);
  files_found_count : Z;
}.

Definition with_pending (P : gset string) (st : coordinator) : coordinator :=
  {| global_inverted_index := global_inverted_index st;
     dispatched_docs_pending_results := P |}.

(** [with index_lock: dispatched_docs_pending_results.add(doc_id)] *)
Definition pending_add (doc_id : string) (st : coordinator) : coordinator :=
  with_pending ({[ doc_id ]} ∪ dispatched_docs_pending_results st) st.

(** [with index_lock: if doc_id in ...: ....remove(doc_id)] *)
Definition pending_discard (doc_id : string) (st : coordinator) : coordinator :=
  if decide (doc_id ∈ dispatched_docs_pending_results st)
  then with_pending (dispatched_docs_pending_results st ∖ {[ doc_id ]}) st
  else st.

Definition ends_with (suffix s : string) : bool :=
  let n := String.length s in
  let k := String.length suffix in
  (k <=? n)%nat && String.eqb (substring (n - k) k s) suffix.

Section endpoints.
Context {py : PyEnv}.

(** The body of [for filename in os.listdir(scan_path)] for one file. *)
Definition index_file (r : indexing_run) (file : string * file_read) : indexing_run :=
  let '(filename, contents) := file in
  if negb (ends_with ".txt" filename) then r
  else
    let doc_id := filename in
    let found := (files_found_count r + 1)%Z in
    match contents with
    | ReadFails =>
        {| run_coordinator := pending_discard doc_id (run_coordinator r);
           run_broker := run_broker r;
           run_client := run_client r;
           tasks_dispatched_count := tasks_dispatched_count r;
           successful_files := successful_files r;
           failed_files_details :=
             failed_files_details r ++ [(doc_id, ErrorReading)];
           files_found_count := found |}
    | Content content_str =>
        if decide (py_strip content_str = "") then
          {| run_coordinator := run_coordinator r;
             run_broker := run_broker r;
             run_client := run_client r;
             tasks_dispatched_count := tasks_dispatched_count r;
             successful_files := successful_files r;
             failed_files_details :=
               failed_files_details r ++ [(doc_id, SkippedEmpty)];
             files_found_count := found |}
        else
          let task := {| task_doc_id := doc_id; task_content := content_str |} in
          let st1 := pending_add doc_id (run_coordinator r) in
          match TaskQueue.push_task_to_queue (run_broker r) (run_client r) task with
          | (Some pushed_length, b', c') =>
              {| run_coordinator := st1;
                 run_broker := b';
                 run_client := c';
                 tasks_dispatched_count := (tasks_dispatched_count r + 1)%Z;
                 successful_files := successful_files r ++ [doc_id];
                 failed_files_details := failed_files_details r;
                 files_found_count := found |}
          | (None, b', c') =>
              {| run_coordinator := pending_discard doc_id st1;
                 run_broker := b';
                 run_client := c';
                 tasks_dispatched_count := tasks_dispatched_count r;
                 successful_files := successful_files r;
                 failed_files_details :=
                   failed_files_details r ++ [(doc_id, PushFailed)];
                 files_found_count := found |}
          end
    end.

(** [trigger_local_indexing_endpoint]: [None] for the directory is
    [not os.path.isdir(scan_path)]. *)
Definition trigger_local_indexing_endpoint (st : coordinator) (b : broker)
    (c : option TaskQueue.redis_client)
    (directory : option (list (string * file_read))) : result indexing_run :=
  match directory with
  | None => Raise (HTTPException 404)
  | Some files =>
      Ok (foldl index_file
            {| run_coordinator := st; run_broker := b; run_client := c;
               tasks_dispatched_count := 0; successful_files := [];
               failed_files_details := []; files_found_count := 0 |}
            files)
  end.

(** *** /search/ *)

(** [sorted(..., key=lambda item: item[1], reverse=True)]: an item comes
    strictly before those of smaller frequency. *)
Definition freq_before (x y : string * Z) : bool := (y.2 <? x.2)%Z.

Definition search_endpoint (COORDINATOR_PROCESSING_LANGUAGE : string)
    (st : coordinator) (term : string) : result (list (string * Z)) :=
  if decide (py_strip term = "") then Raise (HTTPException 400)
  else
    let stemmed_terms := TextUtils.normalize_text term COORDINATOR_PROCESSING_LANGUAGE in
    match stemmed_terms with
    | [] => Ok []
    | search_stem :: _ =>
        match global_inverted_index st !! search_stem with
        | Some doc_freq_map =>
            Ok (PySort.sort freq_before (map_to_list doc_freq_map))
        | None => Ok []
        end
    end.

(** *** /index/load/ *)

(** What reading the checkpoint gives: the [except] branches, or the
    decoded document with its ['index'] member, if it has one. *)
Inductive checkpoint :=
| FileNotFound
| BadJson
| BadGzipFile
| OtherLoadError
| Document (index_member : option Fuse.index).

Definition load_global_index_from_file (file : checkpoint) : Fuse.index :=
  match file with
  | Document index_member => default ∅ index_member    (* data.get('index', {}) *)
  | _ => ∅
  end.

(** The critical section of [load_index_endpoint]:
    [global_inverted_index = loaded_index] and
    [dispatched_docs_pending_results.clear()] under one [with index_lock]. *)
Definition replace_index_and_clear (loaded_index : Fuse.index) (st : coordinator)
  : coordinator :=
  {| global_inverted_index := loaded_index;
     dispatched_docs_pending_results := ∅ |}.

Definition load_index_endpoint (file : checkpoint) (st : coordinator) : coordinator :=
  let loaded_index := load_global_index_from_file file in
  replace_index_and_clear loaded_index st.

(** *** /workers/status/ *)

(** The body of the loop over the keys; [float] may raise. *)
Definition worker_status_of_key (b : broker) (k : status_key) : result WorkerStatus :=
  let parse (o : option string) : result (option Q) :=
    match o with
    | None => Ok None
    | Some s => match py_float s with
                | Some q => Ok (Some q)
                | None => Raise ValueError
                end
    end in
  let q_len := llen b ("doc_processing_tasks:" +:+ key_worker_id k) in
  match parse (key_cpu k) with
  | Raise e => Raise e
  | Ok cpu =>
      match parse (key_ram k) with
      | Raise e => Raise e
      | Ok ram =>
          Ok {| ws_worker_id := key_worker_id k;
                ws_cpu_percent := cpu;
                ws_ram_percent := ram;
                ws_status_ttl_seconds :=
                  if (0 <=? key_ttl k)%Z then Some (key_ttl k) else None;
                ws_queue_length := Some q_len |}
      end
  end.

Fixpoint worker_statuses (b : broker) (keys : list status_key)
  : result (list WorkerStatus) :=
  match keys with
  | [] => Ok []
  | k :: keys' =>
      match worker_status_of_key b k with
      | Raise e => Raise e
      | Ok ws =>
          match worker_statuses b keys' with
          | Raise e => Raise e
          | Ok l => Ok (ws :: l)
          end
      end
  end.

(** The [try] block of [get_workers_status_endpoint]. *)
Definition workers_status_body (b : broker) (cached : option TaskQueue.redis_client)
  : result (list WorkerStatus) :=
  match fst (TaskQueue.get_publisher_redis_client b cached) with
  | Raise e => Raise e
  | Ok r_client =>
      if negb (TaskQueue.client_truthy r_client) then Raise (HTTPException 503)
      else
        match worker_statuses b (status_keys b) with
        | Raise e => Raise e
        | Ok l =>
            Ok (PySort.sort (λ x y, String.ltb (ws_worker_id x) (ws_worker_id y)) l)
        end
  end.

(** The two handlers, [except redis.exceptions.RedisError] and
    [except Exception]; both raise [HTTPException(status_code=500)], and
    [HTTPException] is an [Exception]. *)
Definition workers_status_handlers (e : exn) : exn :=
  if is_RedisError e then HTTPException 500 else HTTPException 500.

Definition get_workers_status_endpoint (b : broker)
    (cached : option TaskQueue.redis_client) : result (list WorkerStatus) :=
  match workers_status_body b cached with
  | Ok l => Ok l
  | Raise e => Raise (workers_status_handlers e)
  end.

End endpoints.

(** *** /index-status/ *)

Record index_status := {
  total_terms_in_index : nat;
  documents_pending_results : nat;
}.

(** [len(global_inverted_index)] and [len(dispatched_docs_pending_results)],
    read in one critical section. *)
Definition index_status_endpoint (st : coordinator) : index_status :=
  {| total_terms_in_index := size (global_inverted_index st);
     documents_pending_results := size (dispatched_docs_pending_results st) |}.

(** *** The checkpoint file: /index/save/ and the life cycle *)






End Main.

(** ** A small environment to run the definitions

    ASCII text only: words are the maximal runs of letters, digits and
    underscores, the stop words are a handful of English and Spanish ones,
    the stemmers drop a final "s", and a task is written
    [doc_id|content]. *)

Module AsciiEnv.

Definition code (a : ascii) : nat := nat_of_ascii a.

Definition is_space (a : ascii) : bool :=
  ((9 <=? code a) && (code a <=? 13) || (28 <=? code a) && (code a <=? 32))%nat.

Definition is_upper (a : ascii) : bool := ((65 <=? code a) && (code a <=? 90))%nat.
Definition is_lower (a : ascii) : bool := ((97 <=? code a) && (code a <=? 122))%nat.
Definition is_digit (a : ascii) : bool := ((48 <=? code a) && (code a <=? 57))%nat.
Definition is_letter (a : ascii) : bool := is_upper a || is_lower a.
Definition is_word (a : ascii) : bool := is_letter a || is_digit a || (code a =? 95)%nat.

Definition to_lower (a : ascii) : ascii :=
  if is_upper a then ascii_of_nat (code a + 32) else a.

Fixpoint drop_spaces (l : list ascii) : list ascii :=
  match l with
  | a :: l' => if is_space a then drop_spaces l' else l
  | [] => []
  end.

Definition strip (s : string) : string :=
  string_of_list_ascii
    (rev (drop_spaces (rev (drop_spaces (list_ascii_of_string s))))).

Definition lower (s : string) : string :=
  string_of_list_ascii (map to_lower (list_ascii_of_string s)).

(** The words of a text; [cur] is the word being read, reversed. *)
Fixpoint words_from (cur : list ascii) (l : list ascii) : list string :=
  let flush (rest : list string) : list string :=
    match cur with
    | [] => rest
    | _ => string_of_list_ascii (rev cur) :: rest
    end in
  match l with
  | [] => flush []
  | a :: l' => if is_word a then words_from (a :: cur) l' else flush (words_from [] l')
  end.

Definition findall (s : string) : list string := words_from [] (list_ascii_of_string s).

Definition isalpha (s : string) : bool :=
  match list_ascii_of_string s with
  | [] => false
  | l => forallb is_letter l
  end.

Definition drop_final_s (s : string) : string :=
  match rev (list_ascii_of_string s) with
  | a :: (_ :: _) as l' =>
      if (code a =? 115)%nat then string_of_list_ascii (rev l') else s
  | _ => s
  end.

(** Decimal numerals without sign or fraction. *)
Fixpoint digits (acc : Z) (l : list ascii) : option Z :=
  match l with
  | [] => Some acc
  | a :: l' =>
      if is_digit a then digits (10 * acc + Z.of_nat (code a - 48)) l' else None
  end.

Definition float (s : string) : option Q :=
  match list_ascii_of_string s with
  | [] => None
  | l => (λ z, z # 1) <$> digits 0 l
  end.

Fixpoint split_bar (before : list ascii) (l : list ascii) : option (string * string) :=
  match l with
  | [] => None
  | a :: l' =>
      if (code a =? 124)%nat
      then Some (string_of_list_ascii (rev before), string_of_list_ascii l')
      else split_bar (a :: before) l'
  end.

Definition decode (s : string) : decoded_task :=
  match split_bar [] (list_ascii_of_string s) with
  | None => TaskNotJson
  | Some (d, c) => TaskData d c None
  end.

#[export] Instance env : PyEnv := {|
  py_lower := lower;
  py_strip := strip;
  py_isalpha := isalpha;
  py_float := float;
  tok_findall := findall;
  stopwords_english := {[ "the"; "a"; "and"; "of" ]};
  stopwords_spanish := {[ "el"; "la"; "y"; "de" ]};
  stem_english := drop_final_s;
  stem_spanish := drop_final_s;
  decode_task := decode;
|}.

End AsciiEnv.

(** ** The vocabulary of the specification *)

(** *** Fuser *)

(** The inner map of a term is a dict that holds [doc_id] with a
    non-negative integer frequency [f]. *)
Definition valid_term (doc_id : string) (v : pyval) (f : Z) : Prop :=
  ∃ m x, v = PyDict m ∧ m !! doc_id = Some x ∧ as_int x = Some f ∧ 0 ≤ f.

(** The inner map is not a dict, or does not hold [doc_id], or holds it
    with something that is not a non-negative integer. *)
Definition invalid_term (doc_id : string) (v : pyval) : Prop :=
  (∀ m, v ≠ PyDict m)
  ∨ (∃ m, v = PyDict m ∧ m !! doc_id = None)
  ∨ (∃ m x, v = PyDict m ∧ m !! doc_id = Some x ∧ ¬ ∃ f, as_int x = Some f ∧ 0 ≤ f).

(** A partial-index record, as far as the Fuser reads it. *)
Record fusion_record := {
  record_doc_id : string;
  record_partial_index : gmap string pyval;
}.

(** Every inner map has exactly one entry, its key is the [doc_id] of the
    record and its value a non-negative integer. *)
Definition well_formed_inner (doc_id : string) (v : pyval) : bool :=
  match v with
  | PyDict m =>
      match map_to_list m with
      | [(k, PyInt f)] => bool_decide (k = doc_id) && (0 <=? f)
      | _ => false
      end
  | _ => false
  end.

Definition well_formed (r : fusion_record) : bool :=
  forallb (λ item, well_formed_inner (record_doc_id r) item.2)
          (map_to_list (record_partial_index r)).

(** The Fuser applied to a sequence of records, in order. *)
Definition fuse_all (g : Fuse.index) (records : list fusion_record) : Fuse.index :=
  foldl (λ g r, Fuse.merge_partial_index g (record_partial_index r) (record_doc_id r))
        g records.

(** *** Sorting *)

(** [x] may stand in front of [y]: [y] does not have to come strictly
    before [x]. *)
Definition may_precede {A : Type} (before : A → A → bool) (x y : A) : Prop :=
  before y x = false.


(** *** Term frequencies *)

(** The number of occurrences of [t] in [tokens]. *)
Definition occurrences (t : string) (tokens : list string) : Z :=
  Z.of_nat (length (filter (λ x, x = t) tokens)).

(** The map [calculate_tf] has built when the counts are [counts]. *)
Definition tf_of_counts (doc_id : string) (counts : gmap string Z)
  : gmap string (gmap string Z) :=
  (λ c : Z, {[ doc_id := c ]}) <$> counts.

Definition count_token (counts : gmap string Z) (token : string) : gmap string Z :=
  <[token := default 0 (counts !! token) + 1]> counts.

(** ** Sample data *)

Definition doc2 : fusion_record :=
  {| record_doc_id := "d2.txt";
     record_partial_index :=
       {[ "cat" := PyDict {[ "d2.txt" := PyInt 2 ]};
          "dog" := PyDict {[ "d2.txt" := PyInt 1 ]} ]} |}.

Definition doc3 : fusion_record :=
  {| record_doc_id := "d3.txt";
     record_partial_index := {[ "dog" := PyDict {[ "d3.txt" := PyInt 1 ]} ]} |}.

(** A record for [d9.txt] with a term keyed by another document, a term
    that is no dict, a negative frequency, and one valid term. *)
Definition doc9 : gmap string pyval :=
  {[ "foo" := PyDict {[ "dX.txt" := PyInt 3 ]};
     "bar" := PyList [PyInt 1];
     "baz" := PyDict {[ "d9.txt" := PyInt (-1) ]};
     "qux" := PyDict {[ "d9.txt" := PyInt 4 ]} ]}.

Definition sample_index : Fuse.index :=
  {[ "cat" := {[ "d2.txt" := 2 ]};
     "dog" := {[ "d2.txt" := 1; "d3.txt" := 1; "d4.txt" := 5 ]} ]}.

Definition sample_coordinator : Main.coordinator :=
  {| Main.global_inverted_index := sample_index;
     Main.dispatched_docs_pending_results := ∅ |}.

Definition live_key (id cpu ram : string) : status_key :=
  {| key_worker_id := id; key_ttl := 6; key_cpu := Some cpu; key_ram := Some ram |}.

(** Two workers with the same queue length, cpu and ram, in the two orders
    in which the broker may list their keys. *)
Definition broker_b_then_a : broker :=
  {| reachable := true;
     status_keys := [live_key "worker-b" "10" "10"; live_key "worker-a" "10" "10"];
     queues := ∅ |}.


(** Workers A (90, 90) and B (10, 10), and C (5, 5) whose key has expired. *)
Definition broker_abc : broker :=
  {| reachable := true;
     status_keys :=
       [live_key "A" "90" "90"; live_key "B" "10" "10";
        {| key_worker_id := "C"; key_ttl := -2; key_cpu := Some "5"; key_ram := Some "5" |}];
     queues := ∅ |}.

Definition unreachable_broker : broker :=
  {| reachable := false; status_keys := []; queues := ∅ |}.

Definition sample_run : Main.indexing_run :=
  {| Main.run_coordinator := Main.pending_add "a.txt" sample_coordinator;
     Main.run_broker := unreachable_broker;
     Main.run_client := None;
     Main.tasks_dispatched_count := 0;
     Main.successful_files := [];
     Main.failed_files_details := [];
     Main.files_found_count := 0 |}.

Definition sample_redis : Worker.worker_redis :=
  {| Worker.connect_ok := true; Worker.publish_ok := true |}.

(** The same broker when no connection to it can be made. *)
Definition out_of_reach (b : broker) : broker :=
  {| reachable := false; status_keys := status_keys b; queues := queues b |}.

(** What a call of the indexing endpoint leaves behind, when it returns. *)
Definition pending_after (res : result Main.indexing_run)
  : option (gset string) :=
  match res with
  | Ok r => Some (Main.dispatched_docs_pending_results (Main.run_coordinator r))
  | Raise _ => None
  end.

Definition failures_after (res : result Main.indexing_run)
  : option (list (string * Main.failure)) :=
  match res with
  | Ok r => Some (Main.failed_files_details r)
  | Raise _ => None
  end.

(** a.txt is submitted while worker-b and worker-a are alive. *)
Definition first_submission : result Main.indexing_run :=
  Main.trigger_local_indexing_endpoint (py := AsciiEnv.env) sample_coordinator
    broker_b_then_a None (Some [("a.txt", Main.Content "fox")]).

(** a.txt is submitted again, from the state the first submission left,
    while the broker is out of reach. *)
Definition second_submission : result Main.indexing_run :=
  match first_submission with
  | Ok r =>
      Main.trigger_local_indexing_endpoint (py := AsciiEnv.env) (Main.run_coordinator r)
        (out_of_reach (Main.run_broker r)) (Main.run_client r)
        (Some [("a.txt", Main.Content "fox")])
  | Raise e => Raise e
  end.

(** ** Further vocabulary *)

(** The record of a published payload, as the Fuser receives it. *)
Definition record_of (m : Worker.result_payload) : fusion_record :=
  {| record_doc_id := Worker.payload_doc_id m;
     record_partial_index := data_partial_index (Main.received m) |}.

(** The tokens of a task: [normalize_text(content, language_to_use)]. *)
Definition task_tokens {py : PyEnv} (PROCESSING_LANGUAGE content : string)
    (language : option string) : list string :=
  TextUtils.normalize_text content (default PROCESSING_LANGUAGE language).

(** No frequency of the index is negative. *)
Definition nonneg_index (g : Fuse.index) : Prop :=
  ∀ t d f, Fuse.entry g t d = Some f → 0 ≤ f.

(** The name of the task list of a worker. *)
Definition queue_of (worker_id : string) : string :=
  TaskQueue.TASK_QUEUE_PREFIX +:+ ":" +:+ worker_id.

(** The status key is skipped by the dispatcher: its ttl is negative and
    not -1. *)
Definition expired (k : status_key) : Prop := key_ttl k < 0 ∧ key_ttl k ≠ -1.

(** The field is present and [float] raises on it. *)
Definition unparsable {py : PyEnv} (field : option string) : bool :=
  match field with
  | Some s => match py_float s with Some _ => false | None => true end
  | None => false
  end.

(** The variables of the indexing endpoint before the first file. *)
Definition fresh_run (st : Main.coordinator) (b : broker)
    (c : option TaskQueue.redis_client) : Main.indexing_run :=
  {| Main.run_coordinator := st; Main.run_broker := b; Main.run_client := c;
     Main.tasks_dispatched_count := 0; Main.successful_files := [];
     Main.failed_files_details := []; Main.files_found_count := 0 |}.

(** The names of the listing that end in .txt, in order. *)
Definition txt_files (files : list (string * Main.file_read)) : list string :=
  filter (λ name, Main.ends_with ".txt" name = true) files.*1.

(** What one file of the listing does to the variables of the endpoint:
    it is ignored, or counted as a failure, or dispatched. *)
Inductive file_outcome (r : Main.indexing_run) (filename : string)
    (r1 : Main.indexing_run) : Prop :=
| file_ignored :
    Main.ends_with ".txt" filename = false → r1 = r → file_outcome r filename r1
| file_failed (why : Main.failure) :
    Main.ends_with ".txt" filename = true →
    Main.files_found_count r1 = Main.files_found_count r + 1 →
    Main.tasks_dispatched_count r1 = Main.tasks_dispatched_count r →
    Main.successful_files r1 = Main.successful_files r →
    Main.failed_files_details r1 = Main.failed_files_details r ++ [(filename, why)] →
    Main.run_broker r1 = Main.run_broker r →
    Main.dispatched_docs_pending_results (Main.run_coordinator r1)
    = match why with
      | Main.SkippedEmpty => Main.dispatched_docs_pending_results (Main.run_coordinator r)
      | _ => Main.dispatched_docs_pending_results (Main.run_coordinator r) ∖ {[ filename ]}
      end →
    file_outcome r filename r1
| file_dispatched :
    Main.ends_with ".txt" filename = true →
    Main.files_found_count r1 = Main.files_found_count r + 1 →
    Main.tasks_dispatched_count r1 = Main.tasks_dispatched_count r + 1 →
    Main.successful_files r1 = Main.successful_files r ++ [filename] →
    Main.failed_files_details r1 = Main.failed_files_details r →
    reachable (Main.run_broker r) = true →
    Main.dispatched_docs_pending_results (Main.run_coordinator r1)
    = {[ filename ]} ∪ Main.dispatched_docs_pending_results (Main.run_coordinator r) →
    file_outcome r filename r1.

(** ** Further sample data *)

Definition sample_task : DocumentTask :=
  {| task_doc_id := "a.txt"; task_content := "fox" |}.

(** [broker_abc] after a task was pushed to worker B. *)
Definition broker_abc_pushed : broker :=
  {| reachable := true;
     status_keys := status_keys broker_abc;
     queues := {[ "doc_processing_tasks:B" := [sample_task] ]} |}.

(** A listing with a file to dispatch, one that cannot be read, one that is
    blank and one that is no .txt file. *)
Definition sample_listing : list (string * Main.file_read) :=
  [("a.txt", Main.Content "fox"); ("b.txt", Main.ReadFails);
   ("c.txt", Main.Content "  "); ("notes.md", Main.Content "fox")].

(** Worker x reports a cpu field that is no number. *)
Definition broker_malformed : broker :=
  {| reachable := true;
     status_keys := [live_key "worker-x" "n/a" "10"; live_key "worker-y" "10" "10"];
     queues := ∅ |}.

(** * Properties *)

Import Fuse TaskQueue Worker Main.

(** ** The Fuser *)

Lemma accepted_frequency_valid d v f :
  accepted_frequency d v = Some f ↔ valid_term d v f.
Proof.
  unfold accepted_frequency, valid_term. split.
  - destruct v as [| | | | | |m]; simpl; try discriminate.
    destruct (m !! d) as [x|] eqn:Hx; [|discriminate].
    destruct (as_int x) as [z|] eqn:Hz; [|discriminate].
    destruct (Z.ltb_spec z 0); [discriminate|].
    intros [= <-]. eauto 10.
  - intros (m & x & -> & Hx & Hz & Hf). simpl. rewrite Hx, Hz.
    destruct (Z.ltb_spec f 0); [lia|done].
Qed.

Lemma accepted_frequency_invalid d v :
  accepted_frequency d v = None ↔ invalid_term d v.
Proof.
  split.
  - intros Hn. destruct v as [| | | | | |m]; try (left; discriminate).
    right. destruct (m !! d) as [x|] eqn:Hx; [right|left; eauto].
    exists m, x. split_and!; [done..|]. intros (f & Hz & Hf).
    assert (accepted_frequency d (PyDict m) = Some f) as Hs
      by (apply accepted_frequency_valid; red; eauto 10).
    congruence.
  - intros Hi. destruct (accepted_frequency d v) as [f|] eqn:Ha; [|done].
    apply accepted_frequency_valid in Ha as (m & x & -> & Hx & Hz & Hf).
    destruct Hi as [Hi|[(m' & [= <-] & Hi)|(m' & x' & [= <-] & Hx' & Hi)]].
    + by destruct (Hi m).
    + congruence.
    + destruct Hi. exists f. split; congruence.
Qed.

(** What one iteration of the loop does to the inner map of any term. *)
Lemma merge_term_lookup d (g : index) t v t' :
  merge_term d g (t, v) !! t' =
    if decide (t = t') then
      match accepted_frequency d v with
      | Some f => Some (<[d := f]> (default ∅ (g !! t)))
      | None => g !! t
      end
    else g !! t'.
Proof.
  unfold merge_term. destruct (accepted_frequency d v) as [f|].
  - destruct (g !! t) as [inner|] eqn:Hg; simpl.
    + rewrite Hg. rewrite lookup_insert. by case_decide; subst.
    + rewrite lookup_insert_eq. rewrite lookup_insert.
      case_decide; [done|]. by rewrite lookup_insert_ne.
  - by case_decide; subst.
Qed.

Lemma merge_items_lookup_notin d items (g : index) t :
  t ∉ items.*1 → merge_items d items g !! t = g !! t.
Proof.
  revert g. induction items as [|[t0 v0] items IH]; intros g Hnotin; [done|].
  rewrite fmap_cons in Hnotin. cbn [fst] in Hnotin.
  apply not_elem_of_cons in Hnotin as [Hne Hnotin].
  unfold merge_items in *. cbn [foldl]. rewrite IH by done.
  rewrite merge_term_lookup. by case_decide.
Qed.

Lemma merge_items_lookup_in d items (g : index) t v :
  NoDup items.*1 → (t, v) ∈ items →
  merge_items d items g !! t = merge_term d g (t, v) !! t.
Proof.
  revert g. induction items as [|[t0 v0] items IH]; intros g Hnd Hin.
  - by apply elem_of_nil in Hin.
  - simpl in Hnd. apply NoDup_cons in Hnd as [Hfresh Hnd].
    apply elem_of_cons in Hin as [[= <- <-]|Hin].
    + unfold merge_items. cbn [foldl]. by apply merge_items_lookup_notin.
    + assert (t ≠ t0) as Hne.
      { intros ->. apply Hfresh. apply list_elem_of_fmap. by exists (t0, v). }
      unfold merge_items in *. cbn [foldl]. rewrite (IH _ Hnd Hin).
      rewrite !merge_term_lookup.
      destruct (decide (t0 = t)) as [->|_]; [done|].
      destruct (decide (t = t)); done.
Qed.

(** The inner map of every term after a call of the Fuser: the keys of a
    dict are distinct, so a term is visited once and the order of the
    iteration does not matter. *)
Lemma merge_partial_index_lookup (g : index) (p : gmap string pyval) d t :
  merge_partial_index g p d !! t =
    match p !! t ≫= accepted_frequency d with
    | Some f => Some (<[d := f]> (default ∅ (g !! t)))
    | None => g !! t
    end.
Proof.
  unfold merge_partial_index. destruct (p !! t) as [v|] eqn:Hp; simpl.
  - rewrite (merge_items_lookup_in d _ g t v).
    + rewrite merge_term_lookup. by rewrite decide_True.
    + apply NoDup_fst_map_to_list.
    + by apply elem_of_map_to_list.
  - apply merge_items_lookup_notin. intros Hin.
    apply list_elem_of_fmap in Hin as [[t' v] [-> Hin]].
    apply elem_of_map_to_list in Hin. simpl in *. congruence.
Qed.

Lemma entry_insert_inner (g : index) t d f d' :
  (Some (<[d := f]> (default ∅ (g !! t))) : option (gmap string Z)) ≫= (.!! d')
  = if decide (d = d') then Some f else entry g t d'.
Proof.
  unfold entry. simpl. rewrite lookup_insert. case_decide; [done|].
  destruct (g !! t); simpl; [done|]. apply lookup_empty.
Qed.

(** C1: after [merge_partial_index], every term of the partial index whose
    inner map is a dict holding [doc_id] with a non-negative integer [f] has
    [global_index[term][doc_id] = f]: its inner map is the old one (the empty
    one when the term was absent) with [doc_id] set to [f], whatever was
    stored there before.  Every entry [(term', doc')] that this rule does not
    write is the same before and after the call. *)
Theorem fuser_sets_frequency (g : index) (p : gmap string pyval) (d : string) :
  (∀ term f, (∃ v, p !! term = Some v ∧ valid_term d v f) →
     merge_partial_index g p d !! term = Some (<[d := f]> (default ∅ (g !! term)))
     ∧ entry (merge_partial_index g p d) term d = Some f)
  ∧ (∀ term' doc',
       ¬ (doc' = d ∧ ∃ v f, p !! term' = Some v ∧ valid_term d v f) →
       entry (merge_partial_index g p d) term' doc' = entry g term' doc').
Proof.
  split.
  - intros term f (v & Hp & Hv). apply accepted_frequency_valid in Hv.
    assert (merge_partial_index g p d !! term
            = Some (<[d := f]> (default ∅ (g !! term)))) as Hl.
    { rewrite merge_partial_index_lookup, Hp. simpl. by rewrite Hv. }
    split; [done|]. unfold entry at 1. rewrite Hl, entry_insert_inner.
    by rewrite decide_True.
  - intros term' doc' Hnot. unfold entry at 1.
    rewrite merge_partial_index_lookup.
    destruct (p !! term') as [v|] eqn:Hp; simpl; [|done].
    destruct (accepted_frequency d v) as [f|] eqn:Ha; [|done].
    rewrite entry_insert_inner. case_decide as Hd; [|done].
    destruct Hnot. split; [done|]. exists v, f. split; [done|].
    by apply accepted_frequency_valid.
Qed.

(** C2: a term whose inner map is not a dict, or does not hold [doc_id], or
    holds it with something that is not a non-negative integer, is skipped:
    the global index is the same at that term; the valid terms of the same
    record are fused all the same. *)
Theorem fuser_skips_invalid_terms (g : index) (p : gmap string pyval) (d : string) :
  (∀ term v, p !! term = Some v → invalid_term d v →
     merge_partial_index g p d !! term = g !! term)
  ∧ (∀ term v f, p !! term = Some v → valid_term d v f →
       merge_partial_index g p d !! term = Some (<[d := f]> (default ∅ (g !! term)))).
Proof.
  split.
  - intros term v Hp Hi. apply accepted_frequency_invalid in Hi.
    rewrite merge_partial_index_lookup, Hp. simpl. by rewrite Hi.
  - intros term v f Hp Hv. apply accepted_frequency_valid in Hv.
    rewrite merge_partial_index_lookup, Hp. simpl. by rewrite Hv.
Qed.

(** A record with three invalid terms and a valid one, fused into an index
    that knows one of the invalid terms. *)
Example fuser_skips_example :
  merge_partial_index {[ "foo" := {[ "d1.txt" := 7 ]} ]} doc9 "d9.txt"
  = {[ "foo" := {[ "d1.txt" := 7 ]}; "qux" := {[ "d9.txt" := 4 ]} ]}.
Proof. vm_compute. reflexivity. Qed.

(** Re-indexing overwrites, and [True] is an [int]. *)
Example fuser_overwrites_example :
  merge_partial_index {[ "fox" := {[ "d1.txt" := 1; "d2.txt" := 2 ]} ]}
    {[ "fox" := PyDict {[ "d1.txt" := PyInt 3 ]};
       "dog" := PyDict {[ "d1.txt" := PyBool true ]} ]} "d1.txt"
  = {[ "fox" := {[ "d1.txt" := 3; "d2.txt" := 2 ]}; "dog" := {[ "d1.txt" := 1 ]} ]}.
Proof. vm_compute. reflexivity. Qed.

Lemma merge_partial_index_comm (g : index) p1 d1 p2 d2 :
  d1 ≠ d2 →
  merge_partial_index (merge_partial_index g p1 d1) p2 d2
  = merge_partial_index (merge_partial_index g p2 d2) p1 d1.
Proof.
  intros Hne. apply map_eq. intros t.
  rewrite !merge_partial_index_lookup.
  destruct (p1 !! t ≫= accepted_frequency d1) as [f1|],
           (p2 !! t ≫= accepted_frequency d2) as [f2|]; simpl; try done.
  f_equal. by apply insert_insert_ne.
Qed.

Lemma fuse_all_perm (g : index) rs rs' :
  NoDup (record_doc_id <$> rs) → rs ≡ₚ rs' → fuse_all g rs = fuse_all g rs'.
Proof.
  intros Hnd Hperm. revert g Hnd.
  induction Hperm as [|r rs rs' Hperm IH|r1 r2 rs|rs1 rs2 rs3 H12 IH12 H23 IH23];
    intros g Hnd.
  - done.
  - rewrite fmap_cons in Hnd. apply NoDup_cons in Hnd as [_ Hnd].
    unfold fuse_all in *. cbn [foldl]. by apply IH.
  - rewrite !fmap_cons in Hnd. apply NoDup_cons in Hnd as [Hne _].
    apply not_elem_of_cons in Hne as [Hne _].
    unfold fuse_all. cbn [foldl]. by rewrite merge_partial_index_comm.
  - rewrite IH12 by done. apply IH23. by rewrite <- H12.
Qed.

(** C3: fusion commutes across documents.  Well-formed records for pairwise
    distinct [doc_id]s, fused from the same index in any two orders, give the
    same index; for two records, [rs = [r1; r2]] and [rs' = [r2; r1]]. *)
Theorem fusion_commutes_across_documents (g : index) (rs rs' : list fusion_record) :
  Forall (λ r, well_formed r = true) rs →
  NoDup (record_doc_id <$> rs) →
  rs ≡ₚ rs' →
  fuse_all g rs = fuse_all g rs'.
Proof. intros _. apply fuse_all_perm. Qed.

Lemma fusion_commutes_witness :
  fuse_all sample_index [doc2; doc3] = fuse_all sample_index [doc3; doc2].
Proof.
  apply (fusion_commutes_across_documents sample_index [doc2; doc3] [doc3; doc2]).
  - repeat constructor; vm_compute; reflexivity.
  - apply (bool_decide_unpack _). vm_compute. reflexivity.
  - apply perm_swap.
Defined.

Example fuse_all_example :
  fuse_all ∅ [doc2; doc3]
  = {[ "cat" := {[ "d2.txt" := 2 ]}; "dog" := {[ "d2.txt" := 1; "d3.txt" := 1 ]} ]}.
Proof. vm_compute. reflexivity. Qed.

(** ** The stable sort *)

Section stable_sort_facts.
Context {A : Type} (before : A → A → bool).
Hypothesis before_asym : ∀ x y, before x y = true → before y x = false.
Hypothesis may_precede_trans : ∀ x y z,
  may_precede before x y → may_precede before y z → may_precede before x z.

Lemma insert_perm x l : PySort.insert before x l ≡ₚ x :: l.
Proof.
  induction l as [|y l IH]; simpl; [done|].
  destruct (before y x); [|done].
  rewrite IH. apply perm_swap.
Qed.

Lemma sort_perm l : PySort.sort before l ≡ₚ l.
Proof.
  induction l as [|x l IH]; simpl; [done|].
  rewrite insert_perm. by rewrite IH.
Qed.

Lemma insert_sorted x l :
  StronglySorted (may_precede before) l →
  StronglySorted (may_precede before) (PySort.insert before x l).
Proof using before_asym may_precede_trans.
  induction 1 as [|y l Hl IH Hy]; simpl.
  - repeat constructor.
  - destruct (before y x) eqn:Hyx.
    + constructor; [done|]. rewrite insert_perm. constructor; [|done].
      by apply before_asym.
    + constructor; [by constructor|]. constructor; [done|].
      eapply Forall_impl; [exact Hy|]. intros z Hz.
      by apply (may_precede_trans x y z).
Qed.

Lemma sort_sorted l : StronglySorted (may_precede before) (PySort.sort before l).
Proof using before_asym may_precede_trans.
  induction l as [|x l IH]; simpl; [constructor|]. by apply insert_sorted.
Qed.



End stable_sort_facts.

Lemma StronglySorted_weaken {A} (R S : A → A → Prop) l :
  (∀ x y, R x y → S x y) → StronglySorted R l → StronglySorted S l.
Proof.
  intros HRS. induction 1 as [|x l Hl IH Hx]; constructor; [done|].
  eapply Forall_impl; [exact Hx|]. intros y. apply HRS.
Qed.

(** ** The dispatcher *)





Section dispatcher_facts.
Context {py : PyEnv}.


End dispatcher_facts.



(** Worker B, the less loaded of A and B, is selected; C, whose status key
    has expired, is no candidate. *)
Example dispatcher_example :
  get_least_loaded_worker (py := AsciiEnv.env) broker_abc = Some "B"
  ∧ map worker_id (candidate_workers (py := AsciiEnv.env) broker_abc) = ["A"; "B"].
Proof. vm_compute. split; reflexivity. Qed.

(** ** Query resolution *)

Lemma freq_before_asym x y : freq_before x y = true → freq_before y x = false.
Proof. unfold freq_before. rewrite Z.ltb_lt, Z.ltb_ge. lia. Qed.

Lemma freq_may_precede_trans x y z :
  may_precede freq_before x y → may_precede freq_before y z →
  may_precede freq_before x z.
Proof. unfold may_precede, freq_before. rewrite !Z.ltb_ge. lia. Qed.

Section search_facts.
Context {py : PyEnv}.

(** C5: a search that the endpoint accepts (the term is not blank; a blank
    term is rejected with status 400 before it is normalized) returns a list
    of documents.  When normalization yields a first stem that the index
    knows, the list holds exactly the [(doc_id, frequency)] entries of the
    index at that stem, in an order in which frequencies never increase;
    when the stem is absent, or there is no stem, the list is empty. *)
Theorem search_returns_sorted_entries (language : string) (st : coordinator)
    (term : string) :
  py_strip term ≠ "" →
  ∃ docs,
    search_endpoint language st term = Ok docs
    ∧ match TextUtils.normalize_text term language with
      | [] => docs = []
      | stem :: _ =>
          match global_inverted_index st !! stem with
          | None => docs = []
          | Some doc_freq_map =>
              docs ≡ₚ map_to_list doc_freq_map
              ∧ (∀ doc_id f, (doc_id, f) ∈ docs ↔ doc_freq_map !! doc_id = Some f)
              ∧ StronglySorted (λ x y, y.2 ≤ x.2) docs
          end
      end.
Proof.
  intros Hterm. unfold search_endpoint. rewrite decide_False by done.
  destruct (TextUtils.normalize_text term language) as [|stem stems]; [by eexists|].
  destruct (global_inverted_index st !! stem) as [m|]; [|by eexists].
  eexists. split; [done|]. split_and!.
  - apply sort_perm.
  - intros doc_id f. rewrite sort_perm. apply elem_of_map_to_list.
  - eapply StronglySorted_weaken;
      [|apply (sort_sorted freq_before freq_before_asym freq_may_precede_trans)].
    intros x y. unfold may_precede, freq_before. by rewrite Z.ltb_ge.
Qed.

Lemma search_blank_term (language : string) (st : coordinator) (term : string) :
  py_strip term = "" → search_endpoint language st term = Raise (HTTPException 400).
Proof. intros Hterm. unfold search_endpoint. by rewrite decide_True. Qed.

End search_facts.

Lemma search_returns_sorted_entries_witness :
  ∃ docs,
    search_endpoint (py := AsciiEnv.env) "english" sample_coordinator "Dogs" = Ok docs
    ∧ match TextUtils.normalize_text (py := AsciiEnv.env) "Dogs" "english" with
      | [] => docs = []
      | stem :: _ =>
          match global_inverted_index sample_coordinator !! stem with
          | None => docs = []
          | Some doc_freq_map =>
              docs ≡ₚ map_to_list doc_freq_map
              ∧ (∀ doc_id f, (doc_id, f) ∈ docs ↔ doc_freq_map !! doc_id = Some f)
              ∧ StronglySorted (λ x y, y.2 ≤ x.2) docs
          end
      end.
Proof.
  apply (search_returns_sorted_entries (py := AsciiEnv.env) "english"
           sample_coordinator "Dogs").
  vm_compute. discriminate.
Defined.

(** The ties of d2.txt and d3.txt come in the order of the items. *)
Example search_example :
  (search_endpoint (py := AsciiEnv.env) "english" sample_coordinator "Dogs"
   = Ok [("d4.txt", 5); ("d3.txt", 1); ("d2.txt", 1)]
   ∨ search_endpoint (py := AsciiEnv.env) "english" sample_coordinator "Dogs"
     = Ok [("d4.txt", 5); ("d2.txt", 1); ("d3.txt", 1)])
  ∧ search_endpoint (py := AsciiEnv.env) "english" sample_coordinator "cat"
    = Ok [("d2.txt", 2)]
  ∧ search_endpoint (py := AsciiEnv.env) "english" sample_coordinator "bird" = Ok []
  ∧ search_endpoint (py := AsciiEnv.env) "english" sample_coordinator "the" = Ok []
  ∧ search_endpoint (py := AsciiEnv.env) "english" sample_coordinator "  "
    = Raise (HTTPException 400).
Proof. vm_compute. auto 10. Qed.

(** ** Dispatch and the pending set *)

Section dispatch_facts.
Context {py : PyEnv}.

(** C6, as the code has it: the document is put into the pending set before
    the push, and when [push_task_to_queue] returns [None] it is taken out
    again.  After a failed dispatch the document is not pending: the pending
    set is the one before the submission without [doc_id], which is the one
    before the submission when the document was not pending already. *)
Theorem failed_dispatch_discards_doc (r : indexing_run) (filename content_str : string)
    (b' : broker) (c' : option redis_client) :
  ends_with ".txt" filename = true →
  py_strip content_str ≠ "" →
  push_task_to_queue (run_broker r) (run_client r)
    {| task_doc_id := filename; task_content := content_str |} = (None, b', c') →
  filename ∈ dispatched_docs_pending_results (pending_add filename (run_coordinator r))
  ∧ dispatched_docs_pending_results
      (run_coordinator (index_file r (filename, Content content_str)))
    = dispatched_docs_pending_results (run_coordinator r) ∖ {[ filename ]}
  ∧ (filename ∉ dispatched_docs_pending_results
                  (run_coordinator (index_file r (filename, Content content_str))))
  ∧ ((filename ∉ dispatched_docs_pending_results (run_coordinator r)) →
     dispatched_docs_pending_results
       (run_coordinator (index_file r (filename, Content content_str)))
     = dispatched_docs_pending_results (run_coordinator r)).
Proof.
  intros Htxt Hcontent Hpush.
  assert (dispatched_docs_pending_results
            (run_coordinator (index_file r (filename, Content content_str)))
          = dispatched_docs_pending_results (run_coordinator r) ∖ {[ filename ]}) as Heq.
  { unfold index_file. rewrite Htxt. cbn [negb].
    rewrite decide_False by done. rewrite Hpush. cbn [run_coordinator].
    unfold pending_discard, pending_add, with_pending. cbn.
    rewrite decide_True by (apply elem_of_union_l, elem_of_singleton; done).
    cbn. apply set_eq. intros x.
    rewrite !elem_of_difference, elem_of_union. tauto. }
  rewrite Heq. split_and!; [|done|..].
  - unfold pending_add, with_pending. cbn.
    apply elem_of_union_l, elem_of_singleton. done.
  - rewrite elem_of_difference, elem_of_singleton. tauto.
  - intros Hfresh. apply set_eq. intros x.
    rewrite elem_of_difference, elem_of_singleton. split; [tauto|].
    intros Hx. split; [done|]. congruence.
Qed.

(** Both ways in which a dispatch fails at once: no connection to the
    broker, and no worker to choose. *)
Lemma push_fails_unreachable (b : broker) (c : option redis_client) (t : DocumentTask) :
  reachable b = false → push_task_to_queue b c t = (None, b, None).
Proof.
  intros Hb. unfold push_task_to_queue, get_publisher_redis_client.
  by destruct c; rewrite Hb.
Qed.

Lemma push_fails_no_worker (b : broker) (c : option redis_client) (t : DocumentTask) :
  reachable b = true → status_keys b = [] →
  (push_task_to_queue b c t).1.1 = None.
Proof.
  intros Hb Hk.
  unfold push_task_to_queue, get_publisher_redis_client, get_least_loaded_worker.
  by destruct c; rewrite Hb, Hk.
Qed.

End dispatch_facts.

(** C6, as the specification has it, fails when the document is pending
    already.  a.txt is submitted and dispatched to a worker, so it is
    pending; it is submitted again while the broker is out of reach: the
    dispatch fails, and the pending set, which held a.txt, is empty. *)
Lemma failed_dispatch_changes_pending :
  pending_after first_submission = Some {[ "a.txt" ]}
  ∧ failures_after first_submission = Some []
  ∧ failures_after second_submission = Some [("a.txt", PushFailed)]
  ∧ pending_after second_submission = Some ∅.
Proof. vm_compute. repeat split. Qed.

Lemma failed_dispatch_discards_doc_witness :
  "a.txt" ∈ dispatched_docs_pending_results
              (pending_add "a.txt" (run_coordinator sample_run))
  ∧ dispatched_docs_pending_results
      (run_coordinator (index_file (py := AsciiEnv.env) sample_run ("a.txt", Content "fox")))
    = dispatched_docs_pending_results (run_coordinator sample_run) ∖ {[ "a.txt" ]}
  ∧ ("a.txt" ∉ dispatched_docs_pending_results
       (run_coordinator (index_file (py := AsciiEnv.env) sample_run ("a.txt", Content "fox"))))
  ∧ (("a.txt" ∉ dispatched_docs_pending_results (run_coordinator sample_run)) →
     dispatched_docs_pending_results
       (run_coordinator (index_file (py := AsciiEnv.env) sample_run ("a.txt", Content "fox")))
     = dispatched_docs_pending_results (run_coordinator sample_run)).
Proof.
  apply (failed_dispatch_discards_doc (py := AsciiEnv.env) sample_run "a.txt" "fox"
           unreachable_broker None).
  - vm_compute. reflexivity.
  - vm_compute. discriminate.
  - vm_compute. reflexivity.
Defined.

(** ** Reloading the checkpoint *)

(** C10: the load-index operation replaces the whole global index with what
    was loaded and, in the same critical section, empties the pending set,
    whatever it held: after the call no document is pending. *)
Theorem load_index_replaces_and_clears (file : checkpoint) (st : coordinator) :
  global_inverted_index (load_index_endpoint file st) = load_global_index_from_file file
  ∧ load_index_endpoint file st
    = replace_index_and_clear (load_global_index_from_file file) st
  ∧ dispatched_docs_pending_results (load_index_endpoint file st) = ∅
  ∧ ∀ doc_id, doc_id ∉ dispatched_docs_pending_results (load_index_endpoint file st).
Proof. split_and!; [done..|]. intros doc_id. simpl. apply not_elem_of_empty. Qed.

Example load_index_example :
  load_index_endpoint (Document (Some sample_index))
    {| global_inverted_index := ∅; dispatched_docs_pending_results := {[ "a.txt"; "b.txt" ]} |}
  = {| global_inverted_index := sample_index; dispatched_docs_pending_results := ∅ |}
  ∧ load_index_endpoint BadGzipFile (pending_add "a.txt" sample_coordinator)
    = {| global_inverted_index := ∅; dispatched_docs_pending_results := ∅ |}.
Proof. split; reflexivity. Qed.

(** ** The worker-status endpoint *)

Section status_facts.
Context {py : PyEnv}.

(** Whatever the [try] block raises, [HTTPException(503)] included, leaves
    the endpoint with status 500. *)
Lemma workers_status_raises_500 (b : broker) (cached : option redis_client) e :
  get_workers_status_endpoint b cached = Raise e → e = HTTPException 500.
Proof.
  unfold get_workers_status_endpoint.
  destruct (workers_status_body b cached) as [l|e']; [done|].
  unfold workers_status_handlers. destruct (is_RedisError e'); congruence.
Qed.

(** C9, on the code: with the broker out of reach the endpoint fails with
    status 500, whatever the keys and queues of the broker and whether or not
    a client is cached. *)
Theorem workers_status_unreachable_is_500 (keys : list status_key)
    (qs : gmap string (list DocumentTask)) (cached : option redis_client) :
  get_workers_status_endpoint
    {| reachable := false; status_keys := keys; queues := qs |} cached
  = Raise (HTTPException 500).
Proof. by destruct cached. Qed.

End status_facts.

(** ** The worker *)

Lemma occurrences_cons t x tokens :
  occurrences t (x :: tokens)
  = (if decide (x = t) then 1 else 0) + occurrences t tokens.
Proof.
  unfold occurrences. rewrite filter_cons. case_decide; simpl; lia.
Qed.

Lemma occurrences_nonneg t tokens : 0 ≤ occurrences t tokens.
Proof. unfold occurrences. lia. Qed.

Lemma occurrences_pos t tokens : t ∈ tokens ↔ 0 < occurrences t tokens.
Proof.
  induction tokens as [|x tokens IH].
  - split; [by intros ?%elem_of_nil|]. unfold occurrences. simpl. lia.
  - rewrite occurrences_cons, elem_of_cons, IH.
    pose proof (occurrences_nonneg t tokens).
    case_decide; subst; split; try lia; auto.
    intros [?|?]; [congruence|lia].
Qed.

(** One iteration keeps the shape of the map and counts the token; neither
    subscript raises. *)
Lemma tf_step_counts doc_id counts token :
  tf_step doc_id (tf_of_counts doc_id counts) token
  = Some (tf_of_counts doc_id (count_token counts token)).
Proof.
  unfold tf_step, tf_of_counts, count_token.
  rewrite lookup_fmap. destruct (counts !! token) as [c|] eqn:Hc; simpl.
  - rewrite lookup_fmap, Hc. simpl. rewrite lookup_singleton_eq. simpl.
    f_equal. rewrite fmap_insert. f_equal. by rewrite insert_singleton_eq.
  - rewrite lookup_insert_eq. simpl. rewrite lookup_singleton_eq. simpl.
    f_equal. rewrite fmap_insert, insert_insert_eq.
    f_equal. by rewrite insert_singleton_eq.
Qed.

Lemma tf_loop_counts doc_id tokens counts :
  tf_loop doc_id tokens (tf_of_counts doc_id counts)
  = Some (tf_of_counts doc_id (foldl count_token counts tokens)).
Proof.
  revert counts. induction tokens as [|token tokens IH]; intros counts; [done|].
  cbn [tf_loop foldl]. rewrite tf_step_counts. simpl. apply IH.
Qed.

Lemma count_tokens_lookup tokens counts t :
  foldl count_token counts tokens !! t
  = if decide (t ∈ tokens)
    then Some (default 0 (counts !! t) + occurrences t tokens)
    else counts !! t.
Proof.
  revert counts. induction tokens as [|x tokens IH]; intros counts.
  - cbn [foldl]. case_decide as Hin; [by apply elem_of_nil in Hin|done].
  - cbn [foldl]. rewrite IH, occurrences_cons. unfold count_token.
    rewrite lookup_insert.
    destruct (decide (x = t)) as [->|Hne].
    + rewrite (decide_True (P := t ∈ t :: tokens)) by left.
      simpl. pose proof (occurrences_pos t tokens) as Hpos.
      case_decide as Hin; [f_equal; lia|].
      f_equal. assert (occurrences t tokens = 0); [|lia].
      pose proof (occurrences_nonneg t tokens). destruct Hpos as [_ Hpos].
      destruct (decide (0 < occurrences t tokens)); [by destruct Hin; auto|lia].
    + case_decide as Hin.
      * rewrite decide_True by (by right). f_equal.
      * rewrite decide_False; [done|]. intros [?|?]%elem_of_cons; congruence.
Qed.

(** C7: [calculate_tf] returns a map (no subscript raises) in which every
    token of the list has the inner map with the single entry
    [doc_id : number of occurrences of the token], a positive number, and in
    which no other term appears.  The empty list gives the empty map. *)
Theorem calculate_tf_counts (tokens : list string) (doc_id : string) :
  ∃ tf_map,
    calculate_tf tokens doc_id = Some tf_map
    ∧ ∀ t, (tf_map !! t
            = if decide (t ∈ tokens)
              then Some {[ doc_id := occurrences t tokens ]}
              else None)
           ∧ (t ∈ tokens → 0 < occurrences t tokens).
Proof.
  exists (tf_of_counts doc_id (foldl count_token ∅ tokens)). split.
  - unfold calculate_tf. destruct tokens as [|token tokens]; [done|].
    change (∅ : gmap string (gmap string Z)) with (tf_of_counts doc_id ∅) at 1.
    apply tf_loop_counts.
  - intros t. split; [|apply occurrences_pos].
    unfold tf_of_counts. rewrite lookup_fmap, count_tokens_lookup.
    rewrite lookup_empty. case_decide; simpl; [|done]. by rewrite Z.add_0_l.
Qed.

Example calculate_tf_example :
  calculate_tf ["cat"; "dog"; "cat"] "d2.txt"
  = Some {[ "cat" := {[ "d2.txt" := 2 ]}; "dog" := {[ "d2.txt" := 1 ]} ]}.
Proof. vm_compute. reflexivity. Qed.

Section worker_facts.
Context {py : PyEnv}.

(** C8: a task whose content normalizes to no token makes
    [process_document_task] return without publishing; the listener of the
    coordinator is handed nothing, the state of the coordinator stays as it
    is, and a pending [doc_id] stays pending. *)
Theorem empty_tokens_publish_nothing (redis : worker_redis)
    (PROCESSING_LANGUAGE WORKER_ID task_data_json doc_id content : string)
    (language : option string) :
  decode_task task_data_json = TaskData doc_id content language →
  TextUtils.normalize_text content (default PROCESSING_LANGUAGE language) = [] →
  process_document_task redis PROCESSING_LANGUAGE WORKER_ID task_data_json = []
  ∧ ∀ st : coordinator,
      deliver (process_document_task redis PROCESSING_LANGUAGE WORKER_ID task_data_json) st
      = st
      ∧ (doc_id ∈ dispatched_docs_pending_results st →
         doc_id ∈ dispatched_docs_pending_results
           (deliver (process_document_task redis PROCESSING_LANGUAGE WORKER_ID
                       task_data_json) st)).
Proof.
  intros Hdecode Htokens.
  assert (process_document_task redis PROCESSING_LANGUAGE WORKER_ID task_data_json = [])
    as Hnone.
  { unfold process_document_task. destruct (connect_ok redis); [|done].
    cbn [negb]. by rewrite Hdecode, Htokens. }
  split; [done|]. intros st. by rewrite Hnone.
Qed.

End worker_facts.

Lemma empty_tokens_publish_nothing_witness :
  process_document_task (py := AsciiEnv.env) sample_redis "english" "worker-1"
    "d1.txt|the and of 42" = []
  ∧ ∀ st : coordinator,
      deliver (process_document_task (py := AsciiEnv.env) sample_redis "english" "worker-1"
                 "d1.txt|the and of 42") st = st
      ∧ ("d1.txt" ∈ dispatched_docs_pending_results st →
         "d1.txt" ∈ dispatched_docs_pending_results
           (deliver (process_document_task (py := AsciiEnv.env) sample_redis "english"
                       "worker-1" "d1.txt|the and of 42") st)).
Proof.
  apply (empty_tokens_publish_nothing (py := AsciiEnv.env) sample_redis "english"
           "worker-1" "d1.txt|the and of 42" "d1.txt" "the and of 42" None).
  - vm_compute. reflexivity.
  - vm_compute. reflexivity.
Defined.

(** A document with tokens is published and fused, and leaves the pending
    set; "the" is a stop word. *)
Example worker_to_coordinator_example :
  deliver
    (process_document_task (py := AsciiEnv.env) sample_redis "english" "worker-1"
       "d1.txt|The quick brown fox")
    {| global_inverted_index := ∅; dispatched_docs_pending_results := {[ "d1.txt" ]} |}
  = {| global_inverted_index :=
         {[ "quick" := {[ "d1.txt" := 1 ]};
            "brown" := {[ "d1.txt" := 1 ]};
            "fox" := {[ "d1.txt" := 1 ]} ]};
       dispatched_docs_pending_results := ∅ |}.
Proof. vm_compute. reflexivity. Qed.

(** * Further properties *)

(** ** The Fuser, once more *)

(** X1: fusing the same record twice gives what fusing it once gives. *)
Theorem fuser_idempotent (g : index) (p : gmap string pyval) (d : string) :
  merge_partial_index (merge_partial_index g p d) p d = merge_partial_index g p d.
Proof.
  apply map_eq. intros t. rewrite !merge_partial_index_lookup.
  destruct (p !! t ≫= accepted_frequency d) as [f|]; [|done].
  simpl. by rewrite insert_insert_eq.
Qed.

(** X2: two records for the same document, fused one after the other: at
    every term the frequency of the document is the one of the second
    record when the second record has a valid entry for the term, else the
    one of the first record when that has a valid entry (the stale entry
    stays), else the one the index had. *)
Theorem fuser_last_writer_wins (g : index) (p1 p2 : gmap string pyval) (d t : string) :
  entry (merge_partial_index (merge_partial_index g p1 d) p2 d) t d
  = match p2 !! t ≫= accepted_frequency d with
    | Some f2 => Some f2
    | None =>
        match p1 !! t ≫= accepted_frequency d with
        | Some f1 => Some f1
        | None => entry g t d
        end
    end.
Proof.
  unfold entry at 1. rewrite !merge_partial_index_lookup.
  destruct (p2 !! t ≫= accepted_frequency d) as [f2|].
  - simpl. by rewrite lookup_insert_eq.
  - destruct (p1 !! t ≫= accepted_frequency d) as [f1|]; [|done].
    simpl. by rewrite lookup_insert_eq.
Qed.

(** X3: the Fuser removes nothing: every entry of the index is still an
    entry afterwards, every term of the index is still a term, and a term
    that is new comes from the partial index. *)
Theorem fuser_never_deletes (g : index) (p : gmap string pyval) (d : string) :
  (∀ t d' f, entry g t d' = Some f →
     ∃ f', entry (merge_partial_index g p d) t d' = Some f')
  ∧ dom g ⊆ dom (merge_partial_index g p d)
  ∧ dom (merge_partial_index g p d) ⊆ dom g ∪ dom p.
Proof.
  split_and!.
  - intros t d' f Hg. unfold entry at 1. rewrite merge_partial_index_lookup.
    destruct (p !! t ≫= accepted_frequency d) as [f0|]; [|eauto].
    rewrite entry_insert_inner. case_decide; eauto.
  - intros t. rewrite !elem_of_dom, merge_partial_index_lookup.
    destruct (p !! t ≫= accepted_frequency d); [eauto|done].
  - intros t. rewrite elem_of_union, !elem_of_dom, merge_partial_index_lookup.
    destruct (p !! t) as [v|] eqn:Hp; simpl; [eauto|]. by left.
Qed.

(** X4: when no frequency of the index is negative, none is after a call of
    the Fuser, whatever the partial index holds. *)
Theorem fuser_keeps_frequencies_nonneg (g : index) (p : gmap string pyval) (d : string) :
  nonneg_index g → nonneg_index (merge_partial_index g p d).
Proof.
  intros Hg t d' f. unfold entry at 1. rewrite merge_partial_index_lookup.
  destruct (p !! t) as [v|] eqn:Hp; simpl; [|apply Hg].
  destruct (accepted_frequency d v) as [f0|] eqn:Ha; [|apply Hg].
  rewrite entry_insert_inner. case_decide; [|apply Hg].
  intros [= <-]. apply accepted_frequency_valid in Ha as (? & ? & _ & _ & _ & ?). done.
Qed.

Lemma nonneg_index_Forall (g : index) :
  map_Forall (λ (_ : string) (inner : gmap string Z),
                map_Forall (λ (_ : string) (f : Z), 0 ≤ f) inner) g →
  nonneg_index g.
Proof.
  intros Hall t d f. unfold entry.
  destruct (g !! t) as [inner|] eqn:Ht; simpl; [|done].
  intros Hd. exact (Hall t inner Ht d f Hd).
Qed.

Lemma fuser_keeps_frequencies_nonneg_witness :
  nonneg_index sample_index
  ∧ nonneg_index (merge_partial_index sample_index doc9 "d9.txt").
Proof.
  assert (nonneg_index sample_index) as Hs.
  { apply nonneg_index_Forall. apply (bool_decide_unpack _). vm_compute. reflexivity. }
  split; [exact Hs|].
  apply (fuser_keeps_frequencies_nonneg sample_index doc9 "d9.txt"). exact Hs.
Defined.

(** ** The results listener *)

Lemma handle_pending data st :
  dispatched_docs_pending_results (handle_partial_index_message data st)
  = dispatched_docs_pending_results st ∖ {[ data_doc_id data ]}.
Proof.
  unfold handle_partial_index_message. cbn. case_decide as Hin; [done|].
  apply set_eq. intros x. rewrite elem_of_difference, elem_of_singleton.
  split; [|tauto]. intros Hx. split; [done|]. congruence.
Qed.

(** X5: after the listener has handled a sequence of published records, the
    index is the one the Fuser builds from the records in order, and the
    pending set is the former one without the documents of the records. *)
Theorem deliver_fuses_and_clears (messages : list result_payload) (st : coordinator) :
  global_inverted_index (deliver messages st)
  = fuse_all (global_inverted_index st) (record_of <$> messages)
  ∧ dispatched_docs_pending_results (deliver messages st)
    = dispatched_docs_pending_results st ∖ list_to_set (payload_doc_id <$> messages).
Proof.
  revert st. induction messages as [|m messages IH]; intros st.
  - split; [done|]. simpl. apply set_eq. intros x.
    rewrite elem_of_difference. split; [|tauto]. intros Hx. split; [done|].
    apply not_elem_of_empty.
  - unfold deliver in *. cbn [foldl].
    destruct (IH (handle_partial_index_message (received m) st)) as [IHg IHp]. split.
    + rewrite IHg. done.
    + rewrite IHp, handle_pending. cbn. apply set_eq. intros x.
      rewrite !elem_of_difference, elem_of_union, !elem_of_singleton. tauto.
Qed.

(** ** From the worker to the index *)

Lemma calculate_tf_eq tokens doc_id :
  calculate_tf tokens doc_id = Some (tf_of_counts doc_id (foldl count_token ∅ tokens)).
Proof.
  unfold calculate_tf. destruct tokens as [|token tokens]; [done|].
  change (∅ : gmap string (gmap string Z)) with (tf_of_counts doc_id ∅) at 1.
  apply tf_loop_counts.
Qed.

Lemma tf_lookup tokens doc_id t :
  tf_of_counts doc_id (foldl count_token ∅ tokens) !! t
  = if decide (t ∈ tokens) then Some {[ doc_id := occurrences t tokens ]} else None.
Proof.
  unfold tf_of_counts. rewrite lookup_fmap, count_tokens_lookup.
  rewrite lookup_empty. case_decide; simpl; [|done]. by rewrite Z.add_0_l.
Qed.

Lemma received_lookup (m : result_payload) t :
  data_partial_index (received m) !! t
  = (λ inner : gmap string Z, PyDict (PyInt <$> inner)) <$> payload_partial_index m !! t.
Proof. unfold received. cbn. by rewrite lookup_fmap. Qed.

Section worker_results.
Context {py : PyEnv}.

(** The one record of a task with tokens, when the broker answers. *)
Lemma process_publishes (redis : worker_redis)
    (PROCESSING_LANGUAGE WORKER_ID task_data_json doc_id content : string)
    (language : option string) :
  connect_ok redis = true → publish_ok redis = true →
  decode_task task_data_json = TaskData doc_id content language →
  task_tokens PROCESSING_LANGUAGE content language ≠ [] →
  process_document_task redis PROCESSING_LANGUAGE WORKER_ID task_data_json
  = [ {| payload_worker_id := WORKER_ID;
         payload_doc_id := doc_id;
         payload_partial_index :=
           tf_of_counts doc_id
             (foldl count_token ∅ (task_tokens PROCESSING_LANGUAGE content language));
         payload_language := default PROCESSING_LANGUAGE language |} ].
Proof.
  intros Hc Hp Hd Ht. unfold process_document_task, task_tokens in *.
  rewrite Hc, Hd. cbn [negb].
  destruct (TextUtils.normalize_text content (default PROCESSING_LANGUAGE language))
    as [|t ts] eqn:Htok; [done|].
  rewrite calculate_tf_eq, Hp. done.
Qed.

(** Whatever is published was computed by [calculate_tf] for the document
    of the record. *)
Lemma process_published (redis : worker_redis)
    (PROCESSING_LANGUAGE WORKER_ID task_data_json : string) m :
  m ∈ process_document_task redis PROCESSING_LANGUAGE WORKER_ID task_data_json →
  ∃ tokens, tokens ≠ []
    ∧ payload_partial_index m
      = tf_of_counts (payload_doc_id m) (foldl count_token ∅ tokens).
Proof.
  unfold process_document_task.
  destruct (connect_ok redis); cbn [negb]; [|by intros ?%elem_of_nil].
  destruct (decode_task task_data_json) as [| |doc_id content language];
    try (by intros ?%elem_of_nil).
  destruct (TextUtils.normalize_text content (default PROCESSING_LANGUAGE language))
    as [|t ts] eqn:Htok; [by intros ?%elem_of_nil|].
  rewrite calculate_tf_eq. destruct (publish_ok redis); [|by intros ?%elem_of_nil].
  intros ->%list_elem_of_singleton. exists (t :: ts). done.
Qed.

(** X6: every record that [process_document_task] publishes is well formed
    for the Fuser: each inner map has one entry, keyed by the document of
    the record, with a non-negative integer; the Fuser skips none of its
    terms. *)
Theorem worker_records_are_well_formed (redis : worker_redis)
    (PROCESSING_LANGUAGE WORKER_ID task_data_json : string) :
  Forall (λ m, well_formed (record_of m) = true)
    (process_document_task redis PROCESSING_LANGUAGE WORKER_ID task_data_json).
Proof.
  apply Forall_forall. intros m Hm.
  apply process_published in Hm as (tokens & _ & Hpi).
  unfold well_formed, record_of. cbn [record_partial_index record_doc_id].
  apply forallb_forall. intros [t v] Hin.
  apply list_elem_of_In, elem_of_map_to_list in Hin.
  rewrite received_lookup, Hpi, tf_lookup in Hin.
  case_decide as Ht; [|done]. cbn in Hin. injection Hin as <-.
  cbn [snd well_formed_inner].
  rewrite map_fmap_singleton, map_to_list_singleton.
  rewrite bool_decide_eq_true_2 by done. cbn.
  apply Z.leb_le, occurrences_nonneg.
Qed.

(** The inner map of every term after the record of a task was handled. *)
Lemma handled_result_lookup (redis : worker_redis)
    (PROCESSING_LANGUAGE WORKER_ID task_data_json doc_id content : string)
    (language : option string) (st : coordinator) t :
  connect_ok redis = true → publish_ok redis = true →
  decode_task task_data_json = TaskData doc_id content language →
  task_tokens PROCESSING_LANGUAGE content language ≠ [] →
  global_inverted_index
    (deliver (process_document_task redis PROCESSING_LANGUAGE WORKER_ID task_data_json) st)
    !! t
  = if decide (t ∈ task_tokens PROCESSING_LANGUAGE content language)
    then Some (<[doc_id := occurrences t (task_tokens PROCESSING_LANGUAGE content language)]>
                 (default ∅ (global_inverted_index st !! t)))
    else global_inverted_index st !! t.
Proof.
  intros Hc Hp Hd Ht.
  rewrite (process_publishes _ _ _ _ _ _ _ Hc Hp Hd Ht).
  set (tokens := task_tokens PROCESSING_LANGUAGE content language) in *.
  unfold deliver. cbn [foldl]. cbn. rewrite merge_partial_index_lookup.
  rewrite lookup_fmap, tf_lookup. case_decide as Hin; [|done]. cbn.
  rewrite lookup_fmap, lookup_singleton_eq. cbn.
  pose proof (occurrences_nonneg t tokens).
  destruct (Z.ltb_spec (occurrences t tokens) 0); [lia|done].
Qed.

(** X7: a task with tokens, handled by a worker whose broker answers, and
    its record handled by the coordinator: the index holds, for every token
    of the document, the number of its occurrences at the document; every
    other entry is as before; the document is no longer pending. *)
Theorem worker_result_is_fused (redis : worker_redis)
    (PROCESSING_LANGUAGE WORKER_ID task_data_json doc_id content : string)
    (language : option string) (st : coordinator) :
  connect_ok redis = true → publish_ok redis = true →
  decode_task task_data_json = TaskData doc_id content language →
  task_tokens PROCESSING_LANGUAGE content language ≠ [] →
  (∀ t, t ∈ task_tokens PROCESSING_LANGUAGE content language →
     entry (global_inverted_index
              (deliver (process_document_task redis PROCESSING_LANGUAGE WORKER_ID
                          task_data_json) st)) t doc_id
     = Some (occurrences t (task_tokens PROCESSING_LANGUAGE content language)))
  ∧ (∀ t d, ¬ (d = doc_id ∧ t ∈ task_tokens PROCESSING_LANGUAGE content language) →
       entry (global_inverted_index
                (deliver (process_document_task redis PROCESSING_LANGUAGE WORKER_ID
                            task_data_json) st)) t d
       = entry (global_inverted_index st) t d)
  ∧ dispatched_docs_pending_results
      (deliver (process_document_task redis PROCESSING_LANGUAGE WORKER_ID
                  task_data_json) st)
    = dispatched_docs_pending_results st ∖ {[ doc_id ]}.
Proof.
  intros Hc Hp Hd Ht. split_and!.
  - intros t Hin. unfold entry.
    rewrite (handled_result_lookup _ _ _ _ _ _ _ _ _ Hc Hp Hd Ht), decide_True by done.
    cbn. by rewrite lookup_insert_eq.
  - intros t d Hnot. unfold entry at 1.
    rewrite (handled_result_lookup _ _ _ _ _ _ _ _ _ Hc Hp Hd Ht).
    case_decide as Hin; [|done]. rewrite entry_insert_inner.
    case_decide as Hdd; [|done]. destruct Hnot. by split.
  - rewrite (process_publishes _ _ _ _ _ _ _ Hc Hp Hd Ht).
    unfold deliver. cbn [foldl]. by rewrite handle_pending.
Qed.

(** X8: a document that was indexed is found: when the first stem of a
    search term is a token of the document, the search returns the document
    with the number of occurrences of the stem. *)
Theorem indexed_document_is_found (redis : worker_redis)
    (PROCESSING_LANGUAGE WORKER_ID task_data_json doc_id content : string)
    (language : option string) (st : coordinator)
    (COORDINATOR_PROCESSING_LANGUAGE term stem : string) (stems : list string) :
  connect_ok redis = true → publish_ok redis = true →
  decode_task task_data_json = TaskData doc_id content language →
  py_strip term ≠ "" →
  TextUtils.normalize_text term COORDINATOR_PROCESSING_LANGUAGE = stem :: stems →
  stem ∈ task_tokens PROCESSING_LANGUAGE content language →
  ∃ docs,
    search_endpoint COORDINATOR_PROCESSING_LANGUAGE
      (deliver (process_document_task redis PROCESSING_LANGUAGE WORKER_ID task_data_json) st)
      term = Ok docs
    ∧ (doc_id, occurrences stem (task_tokens PROCESSING_LANGUAGE content language)) ∈ docs.
Proof.
  intros Hc Hp Hd Hterm Hstem Hin.
  assert (task_tokens PROCESSING_LANGUAGE content language ≠ []) as Hne.
  { intros Hnil. rewrite Hnil in Hin. by apply elem_of_nil in Hin. }
  unfold search_endpoint. rewrite decide_False by done. rewrite Hstem.
  rewrite (handled_result_lookup _ _ _ _ _ _ _ _ _ Hc Hp Hd Hne), decide_True by done.
  eexists. split; [done|]. rewrite sort_perm. apply elem_of_map_to_list.
  by rewrite lookup_insert_eq.
Qed.

End worker_results.

Lemma worker_result_is_fused_witness :
  (∀ t, t ∈ task_tokens (py := AsciiEnv.env) "english" "The quick brown fox" None →
     entry (global_inverted_index
              (deliver (process_document_task (py := AsciiEnv.env) sample_redis "english"
                          "worker-1" "d1.txt|The quick brown fox") sample_coordinator))
           t "d1.txt"
     = Some (occurrences t
               (task_tokens (py := AsciiEnv.env) "english" "The quick brown fox" None)))
  ∧ (∀ t d,
       ¬ (d = "d1.txt"
          ∧ t ∈ task_tokens (py := AsciiEnv.env) "english" "The quick brown fox" None) →
       entry (global_inverted_index
                (deliver (process_document_task (py := AsciiEnv.env) sample_redis "english"
                            "worker-1" "d1.txt|The quick brown fox") sample_coordinator))
             t d
       = entry (global_inverted_index sample_coordinator) t d)
  ∧ dispatched_docs_pending_results
      (deliver (process_document_task (py := AsciiEnv.env) sample_redis "english"
                  "worker-1" "d1.txt|The quick brown fox") sample_coordinator)
    = dispatched_docs_pending_results sample_coordinator ∖ {[ "d1.txt" ]}.
Proof.
  apply (worker_result_is_fused (py := AsciiEnv.env) sample_redis "english" "worker-1"
           "d1.txt|The quick brown fox" "d1.txt" "The quick brown fox" None
           sample_coordinator).
  - reflexivity.
  - reflexivity.
  - vm_compute. reflexivity.
  - vm_compute. discriminate.
Defined.

Lemma indexed_document_is_found_witness :
  ∃ docs,
    search_endpoint (py := AsciiEnv.env) "english"
      (deliver (process_document_task (py := AsciiEnv.env) sample_redis "english"
                  "worker-1" "d1.txt|The quick brown fox fox") sample_coordinator)
      "the Fox" = Ok docs
    ∧ ("d1.txt",
       occurrences "fox"
         (task_tokens (py := AsciiEnv.env) "english" "The quick brown fox fox" None)) ∈ docs.
Proof.
  apply (indexed_document_is_found (py := AsciiEnv.env) sample_redis "english" "worker-1"
           "d1.txt|The quick brown fox fox" "d1.txt" "The quick brown fox fox" None
           sample_coordinator "english" "the Fox" "fox" []).
  - reflexivity.
  - reflexivity.
  - vm_compute. reflexivity.
  - vm_compute. discriminate.
  - vm_compute. reflexivity.
  - apply (bool_decide_unpack _). vm_compute. reflexivity.
Defined.

Lemma occurrences_perm t tokens tokens' :
  tokens ≡ₚ tokens' → occurrences t tokens = occurrences t tokens'.
Proof. intros Hp. unfold occurrences. by rewrite Hp. Qed.

(** X9: [calculate_tf] depends on how often each token occurs and not on
    the order of the tokens. *)
Theorem calculate_tf_ignores_order (tokens tokens' : list string) (doc_id : string) :
  tokens ≡ₚ tokens' → calculate_tf tokens doc_id = calculate_tf tokens' doc_id.
Proof.
  intros Hp. rewrite !calculate_tf_eq. f_equal. apply map_eq. intros t.
  rewrite !tf_lookup, (occurrences_perm t tokens tokens' Hp).
  destruct (decide (t ∈ tokens)) as [Hin|Hin], (decide (t ∈ tokens')) as [Hin'|Hin'];
    try done.
  - destruct Hin'. by rewrite <- Hp.
  - destruct Hin. by rewrite Hp.
Qed.

Lemma calculate_tf_ignores_order_witness :
  calculate_tf ["cat"; "dog"; "cat"] "d2.txt" = calculate_tf ["dog"; "cat"; "cat"] "d2.txt".
Proof.
  apply (calculate_tf_ignores_order ["cat"; "dog"; "cat"] ["dog"; "cat"; "cat"] "d2.txt").
  apply perm_swap.
Defined.

(** X10: what /index-status/ reports before and after a result is handled:
    the number of terms does not go down, and the number of pending
    documents goes down by one when the document of the result was pending
    and stays as it is otherwise. *)
Theorem status_after_result (data : PartialIndexData) (st : coordinator) :
  (total_terms_in_index (index_status_endpoint st)
   ≤ total_terms_in_index (index_status_endpoint (handle_partial_index_message data st)))%nat
  ∧ documents_pending_results (index_status_endpoint (handle_partial_index_message data st))
    = if decide (data_doc_id data ∈ dispatched_docs_pending_results st)
      then (documents_pending_results (index_status_endpoint st) - 1)%nat
      else documents_pending_results (index_status_endpoint st).
Proof.
  split.
  - unfold index_status_endpoint, handle_partial_index_message. cbn.
    rewrite <- !size_dom. apply subseteq_size.
    intros t. rewrite !elem_of_dom, merge_partial_index_lookup.
    destruct (data_partial_index data !! t ≫= accepted_frequency (data_doc_id data));
      [eauto|done].
  - unfold index_status_endpoint, handle_partial_index_message. cbn.
    case_decide as Hin; [|done].
    rewrite size_difference by (by apply singleton_subseteq_l).
    by rewrite size_singleton.
Qed.

(** ** The dispatcher, once more *)

Section dispatcher_more.
Context {py : PyEnv}.

Lemma candidate_of_key_None b k : candidate_of_key b k = None ↔ expired k.
Proof.
  unfold candidate_of_key, expired.
  destruct (Z.ltb_spec (key_ttl k) 0), (Z.eqb_spec (key_ttl k) (-1)); cbn;
    destruct (read_load (key_cpu k) (key_ram k)); split; try done; lia.
Qed.

Lemma candidate_of_key_Some b k c :
  candidate_of_key b k = Some c →
  worker_id c = key_worker_id k ∧ ¬ expired k.
Proof.
  intros Hc. split.
  - unfold candidate_of_key in Hc.
    destruct ((key_ttl k <? 0) && negb (key_ttl k =? -1)); [done|].
    destruct (read_load (key_cpu k) (key_ram k)). by injection Hc as <-.
  - rewrite <- (candidate_of_key_None b). congruence.
Qed.

Lemma select_worker_None cs : select_worker cs = None ↔ cs = [].
Proof.
  split; [|by intros ->]. destruct cs as [|c cs]; [done|].
  unfold select_worker. intros Hn. apply fmap_None in Hn.
  apply head_None in Hn.
  pose proof (sort_perm key_lt (c :: cs)) as Hp. rewrite Hn in Hp.
  by apply Permutation_nil_l in Hp.
Qed.

Lemma get_least_loaded_worker_eq b :
  get_least_loaded_worker b = select_worker (candidate_workers b).
Proof.
  unfold get_least_loaded_worker, candidate_workers.
  by destruct (status_keys b).
Qed.

(** X11: the dispatcher answers [None] exactly when every status key is
    expired (none at all included), and a worker it selects is the worker of
    a status key of the broker that is not expired. *)
Theorem dispatcher_selects_live_worker (b : broker) :
  (get_least_loaded_worker b = None ↔ Forall expired (status_keys b))
  ∧ (∀ w, get_least_loaded_worker b = Some w →
       ∃ k, k ∈ status_keys b ∧ key_worker_id k = w ∧ ¬ expired k).
Proof.
  rewrite get_least_loaded_worker_eq. split.
  - rewrite select_worker_None. unfold candidate_workers.
    induction (status_keys b) as [|k ks IH]; [by split|].
    cbn. rewrite Forall_cons, <- IH, <- (candidate_of_key_None b k).
    destruct (candidate_of_key b k); cbn; split; try done; try tauto.
    intros [? ?]; done.
  - intros w Hw. unfold select_worker in Hw.
    destruct (candidate_workers b) as [|c cs] eqn:Hcs; [done|].
    apply fmap_Some in Hw as (c' & Hhead & ->).
    assert (c' ∈ candidate_workers b) as Hin.
    { rewrite Hcs, <- (sort_perm key_lt (c :: cs)). by apply head_Some_elem_of. }
    unfold candidate_workers in Hin. apply list_elem_of_omap in Hin as (k & Hk & Hc).
    apply candidate_of_key_Some in Hc as (Hid & Hlive). eauto.
Qed.

(** [push_task_to_queue] by cases. *)
Lemma push_task_to_queue_eq (b : broker) (c : option redis_client) (t : DocumentTask) :
  push_task_to_queue b c t
  = if reachable b then
      match get_least_loaded_worker b with
      | Some w =>
          if decide (w = "") then (None, b, Some (default RedisClient c))
          else ((Some (rpush b (queue_of w) t).1, (rpush b (queue_of w) t).2),
                Some (default RedisClient c))
      | None => (None, b, Some (default RedisClient c))
      end
    else (None, b, None).
Proof.
  unfold push_task_to_queue, get_publisher_redis_client, queue_of.
  destruct c as [cl|], (reachable b); cbn; try done;
    destruct (get_least_loaded_worker b) as [w|]; try done;
    by case_decide.
Qed.

(** X12: when [push_task_to_queue] returns a length, the broker was within
    reach, the task is the last of the task list of the worker that the
    dispatcher selects, the length is that of this list, one more than
    before, no other list and no status key has changed, and a client is
    cached. *)
Theorem push_enqueues_on_selected_worker (b : broker) (c : option redis_client)
    (t : DocumentTask) (n : Z) (b' : broker) (c' : option redis_client) :
  push_task_to_queue b c t = (Some n, b', c') →
  ∃ w,
    get_least_loaded_worker b = Some w ∧ w ≠ ""
    ∧ queues b' = <[queue_of w := default [] (queues b !! queue_of w) ++ [t]]> (queues b)
    ∧ n = llen b (queue_of w) + 1
    ∧ llen b' (queue_of w) = n
    ∧ status_keys b' = status_keys b
    ∧ reachable b = true ∧ reachable b' = true
    ∧ c' = Some (default RedisClient c).
Proof.
  rewrite push_task_to_queue_eq.
  destruct (reachable b) eqn:Hr; [|done].
  destruct (get_least_loaded_worker b) as [w|]; [|done].
  case_decide as Hw; [done|].
  intros [= <- <- <-]. exists w. unfold rpush, llen. cbn.
  split_and!; try done.
  - rewrite length_app. cbn. lia.
  - by rewrite lookup_insert_eq.
Qed.


End dispatcher_more.

Lemma push_enqueues_on_selected_worker_witness :
  ∃ w,
    get_least_loaded_worker (py := AsciiEnv.env) broker_abc = Some w ∧ w ≠ ""
    ∧ queues broker_abc_pushed
      = <[queue_of w := default [] (queues broker_abc !! queue_of w) ++ [sample_task]]>
          (queues broker_abc)
    ∧ 1 = llen broker_abc (queue_of w) + 1
    ∧ llen broker_abc_pushed (queue_of w) = 1
    ∧ status_keys broker_abc_pushed = status_keys broker_abc
    ∧ reachable broker_abc = true ∧ reachable broker_abc_pushed = true
    ∧ Some RedisClient = Some (default RedisClient None).
Proof.
  apply (push_enqueues_on_selected_worker (py := AsciiEnv.env) broker_abc None
           sample_task 1 broker_abc_pushed (Some RedisClient)).
  vm_compute. reflexivity.
Defined.

(** ** The indexing endpoint, file by file *)

Section indexing_more.
Context {py : PyEnv}.

Lemma index_file_outcome (r : indexing_run) (filename : string) (contents : file_read) :
  global_inverted_index (run_coordinator (index_file r (filename, contents)))
  = global_inverted_index (run_coordinator r)
  ∧ file_outcome r filename (index_file r (filename, contents)).
Proof.
  unfold index_file.
  destruct (ends_with ".txt" filename) eqn:Htxt; cbn [negb];
    [|split; [done|by apply file_ignored]].
  destruct contents as [|content_str].
  - split.
    + cbn. unfold pending_discard. by case_decide.
    + apply (file_failed _ _ _ ErrorReading); try done. cbn.
      unfold pending_discard. case_decide as Hin; [done|].
      apply set_eq. intros x. rewrite elem_of_difference, elem_of_singleton.
      split; [|tauto]. intros Hx. split; [done|]. congruence.
  - case_decide as Hblank.
    { split; [done|]. by apply (file_failed _ _ _ SkippedEmpty). }
    rewrite push_task_to_queue_eq.
    assert (∀ c',
      global_inverted_index (run_coordinator
        {| run_coordinator := pending_discard filename (pending_add filename (run_coordinator r));
           run_broker := run_broker r; run_client := c';
           tasks_dispatched_count := tasks_dispatched_count r;
           successful_files := successful_files r;
           failed_files_details := failed_files_details r ++ [(filename, PushFailed)];
           files_found_count := files_found_count r + 1 |})
      = global_inverted_index (run_coordinator r)
      ∧ file_outcome r filename
        {| run_coordinator := pending_discard filename (pending_add filename (run_coordinator r));
           run_broker := run_broker r; run_client := c';
           tasks_dispatched_count := tasks_dispatched_count r;
           successful_files := successful_files r;
           failed_files_details := failed_files_details r ++ [(filename, PushFailed)];
           files_found_count := files_found_count r + 1 |}) as Hfail.
    { intros c'. split; [cbn; unfold pending_discard; by case_decide|].
      apply (file_failed _ _ _ PushFailed); try done. cbn.
      unfold pending_discard, pending_add, with_pending. cbn.
      rewrite decide_True by (apply elem_of_union_l, elem_of_singleton; done).
      cbn. apply set_eq. intros x.
      rewrite !elem_of_difference, elem_of_union. tauto. }
    destruct (reachable (run_broker r)) eqn:Hr; [|apply Hfail].
    destruct (get_least_loaded_worker (run_broker r)) as [w|]; [|apply Hfail].
    case_decide; [apply Hfail|].
    split; [done|]. by apply file_dispatched.
Qed.

Lemma txt_files_snoc files name contents :
  txt_files (files ++ [(name, contents)])
  = txt_files files ++ (if ends_with ".txt" name then [name] else []).
Proof.
  unfold txt_files. rewrite fmap_app, filter_app. f_equal.
  change ([(name, contents)].*1) with [name].
  rewrite filter_cons, filter_nil.
  destruct (ends_with ".txt" name); by case_decide.
Qed.

(** The counters and the two lists after the loop over the files. *)
Lemma index_files_counts (r0 : indexing_run) (files : list (string * file_read)) :
  files_found_count r0 = 0 → tasks_dispatched_count r0 = 0 →
  successful_files r0 = [] → failed_files_details r0 = [] →
  files_found_count (foldl index_file r0 files) = Z.of_nat (length (txt_files files))
  ∧ tasks_dispatched_count (foldl index_file r0 files)
    = Z.of_nat (length (successful_files (foldl index_file r0 files)))
  ∧ files_found_count (foldl index_file r0 files)
    = tasks_dispatched_count (foldl index_file r0 files)
      + Z.of_nat (length (failed_files_details (foldl index_file r0 files)))
  ∧ successful_files (foldl index_file r0 files)
      ++ (failed_files_details (foldl index_file r0 files)).*1 ≡ₚ txt_files files.
Proof.
  intros H1 H2 H3 H4.
  induction files as [|[name contents] files IH] using rev_ind.
  { cbn. rewrite H1, H2, H3, H4. done. }
  rewrite foldl_snoc, txt_files_snoc.
  destruct IH as (Hfound & Hdisp & Hsum & Hperm).
  destruct (index_file_outcome (foldl index_file r0 files) name contents)
    as [_ [Htxt ->|why Htxt Hf Hd Hs Hfl _ _|Htxt Hf Hd Hs Hfl _ _]]; rewrite Htxt.
  - rewrite app_nil_r. done.
  - rewrite Hf, Hd, Hs, Hfl, fmap_app, !length_app. cbn.
    split_and!; try lia. by rewrite app_assoc, Hperm.
  - rewrite Hf, Hd, Hs, Hfl, !length_app. cbn.
    split_and!; try lia. rewrite <- Hperm.
    rewrite <- !app_assoc. apply Permutation_app_head, Permutation_app_comm.
Qed.

(** X14: the response of the indexing endpoint accounts for every .txt
    file of the directory once: the files found are the .txt files, the
    dispatched count is the number of successful files, found is dispatched
    plus failed, and the successful and the failed files together are the
    .txt files. *)
Theorem indexing_counts_every_file (st : coordinator) (b : broker)
    (c : option redis_client) (files : list (string * file_read)) :
  ∃ r,
    trigger_local_indexing_endpoint st b c (Some files) = Ok r
    ∧ files_found_count r = Z.of_nat (length (txt_files files))
    ∧ tasks_dispatched_count r = Z.of_nat (length (successful_files r))
    ∧ files_found_count r
      = tasks_dispatched_count r + Z.of_nat (length (failed_files_details r))
    ∧ successful_files r ++ (failed_files_details r).*1 ≡ₚ txt_files files.
Proof.
  exists (foldl index_file (fresh_run st b c) files). split; [done|].
  by apply index_files_counts.
Qed.

(** X15: the indexing endpoint does not touch the index; a document that
    is pending afterwards was pending before or has been dispatched, and a
    document that was pending and is not among the failed files is still
    pending. *)
Theorem indexing_keeps_index (st : coordinator) (b : broker)
    (c : option redis_client) (files : list (string * file_read)) :
  ∃ r,
    trigger_local_indexing_endpoint st b c (Some files) = Ok r
    ∧ global_inverted_index (run_coordinator r) = global_inverted_index st
    ∧ (∀ d, d ∈ dispatched_docs_pending_results (run_coordinator r) →
         d ∈ dispatched_docs_pending_results st ∨ d ∈ successful_files r)
    ∧ (∀ d, d ∈ dispatched_docs_pending_results st →
         d ∉ (failed_files_details r).*1 →
         d ∈ dispatched_docs_pending_results (run_coordinator r)).
Proof.
  exists (foldl index_file (fresh_run st b c) files). split; [done|].
  induction files as [|[name contents] files IH] using rev_ind.
  { cbn. split_and!; auto. }
  rewrite foldl_snoc. destruct IH as (Hg & Hup & Hlow).
  destruct (index_file_outcome (foldl index_file (fresh_run st b c) files) name contents)
    as [Hg1 [Htxt ->|why Htxt _ _ Hs Hfl _ Hp|Htxt _ _ Hs Hfl _ Hp]].
  - done.
  - rewrite Hg1, Hs, Hfl, Hp. split_and!; [done| |].
    + intros d Hd. apply Hup. destruct why; [done|..];
        by apply elem_of_difference in Hd as [? _].
    + intros d Hd Hnot. rewrite fmap_app, not_elem_of_app in Hnot.
      destruct Hnot as [Hnot Hname]. cbn in Hname.
      apply not_elem_of_cons in Hname as [Hname _].
      specialize (Hlow d Hd Hnot). destruct why; [done|..];
        apply elem_of_difference; split; try done;
        by rewrite elem_of_singleton.
  - rewrite Hg1, Hs, Hfl, Hp. split_and!; [done| |].
    + intros d [->%elem_of_singleton|Hd]%elem_of_union.
      * right. apply elem_of_app. right. by left.
      * destruct (Hup d Hd) as [?|?]; [by left|right].
        apply elem_of_app. by left.
    + intros d Hd Hnot. apply elem_of_union. right. by apply Hlow.
Qed.

(** X16: with distinct file names, as a directory has them, every file
    that was dispatched is pending when the endpoint returns, and no file
    that failed to be read or pushed is. *)
Theorem indexing_pending_afterwards (st : coordinator) (b : broker)
    (c : option redis_client) (files : list (string * file_read)) :
  NoDup files.*1 →
  ∃ r,
    trigger_local_indexing_endpoint st b c (Some files) = Ok r
    ∧ (∀ d, d ∈ successful_files r →
         d ∈ dispatched_docs_pending_results (run_coordinator r))
    ∧ (∀ d why, (d, why) ∈ failed_files_details r → why ≠ SkippedEmpty →
         d ∉ dispatched_docs_pending_results (run_coordinator r)).
Proof.
  intros Hnd.
  exists (foldl index_file (fresh_run st b c) files). split; [done|].
  induction files as [|[name contents] files IH] using rev_ind.
  { cbn. split; intros ?; [by intros ?%elem_of_nil|]. by intros ? ?%elem_of_nil. }
  rewrite fmap_app in Hnd. apply NoDup_app in Hnd as (Hnd & Hfresh & _).
  specialize (IH Hnd). destruct IH as [Hsucc Hfail].
  assert (name ∉ files.*1) as Hname.
  { intros Hin. apply (Hfresh name Hin). cbn. by left. }
  destruct (index_files_counts (fresh_run st b c) files) as (_ & _ & _ & Hperm);
    [done..|].
  assert (∀ d, d ∈ successful_files (foldl index_file (fresh_run st b c) files)
               ∨ d ∈ (failed_files_details
                        (foldl index_file (fresh_run st b c) files)).*1 →
               d ≠ name) as Hother.
  { intros d Hd ->. apply Hname.
    assert (name ∈ txt_files files) as Hin
      by (rewrite <- Hperm; by apply elem_of_app).
    unfold txt_files in Hin. by apply list_elem_of_filter in Hin as [_ ?]. }
  rewrite foldl_snoc.
  destruct (index_file_outcome (foldl index_file (fresh_run st b c) files) name contents)
    as [_ [Htxt ->|why Htxt _ _ Hs Hfl _ Hp|Htxt _ _ Hs Hfl _ Hp]].
  - done.
  - rewrite Hs, Hfl, Hp. split.
    + intros d Hd. specialize (Hsucc d Hd).
      destruct why; [done|..]; apply elem_of_difference; split; try done;
        rewrite elem_of_singleton; apply Hother; by left.
    + intros d why' [Hd|Hd]%elem_of_app Hwhy.
      * specialize (Hfail d why' Hd Hwhy).
        destruct why; [done|..]; rewrite elem_of_difference; tauto.
      * apply list_elem_of_singleton in Hd as [= -> ->].
        destruct why; [done|..]; rewrite elem_of_difference, elem_of_singleton; tauto.
  - rewrite Hs, Hfl, Hp. split.
    + intros d [Hd| ->%list_elem_of_singleton]%elem_of_app.
      * apply elem_of_union. right. by apply Hsucc.
      * apply elem_of_union. left. by apply elem_of_singleton.
    + intros d why Hd Hwhy. rewrite elem_of_union, elem_of_singleton.
      intros [->|Hin]; [|by apply (Hfail d why)].
      apply (Hother name); [|done]. right.
      apply list_elem_of_fmap. by exists (name, why).
Qed.

(** X17: while the broker is out of reach the indexing endpoint dispatches
    nothing: no file is successful, the broker is as it was, and no document
    becomes pending. *)
Theorem indexing_without_broker (st : coordinator) (b : broker)
    (c : option redis_client) (files : list (string * file_read)) :
  reachable b = false →
  ∃ r,
    trigger_local_indexing_endpoint st b c (Some files) = Ok r
    ∧ successful_files r = []
    ∧ run_broker r = b
    ∧ dispatched_docs_pending_results (run_coordinator r)
      ⊆ dispatched_docs_pending_results st.
Proof.
  intros Hb.
  exists (foldl index_file (fresh_run st b c) files). split; [done|].
  induction files as [|[name contents] files IH] using rev_ind; [done|].
  rewrite foldl_snoc. destruct IH as (Hs & Hrb & Hp).
  destruct (index_file_outcome (foldl index_file (fresh_run st b c) files) name contents)
    as [_ [Htxt ->|why Htxt _ _ Hs1 _ Hb1 Hp1|Htxt _ _ _ _ Hr _]].
  - done.
  - rewrite Hs1, Hb1, Hp1. split_and!; [done..|].
    destruct why; [done|..]; intros x [Hx _]%elem_of_difference; by apply Hp.
  - rewrite Hrb in Hr. congruence.
Qed.

End indexing_more.

Lemma indexing_pending_afterwards_witness :
  ∃ r,
    trigger_local_indexing_endpoint (py := AsciiEnv.env) sample_coordinator
      broker_b_then_a None (Some sample_listing) = Ok r
    ∧ (∀ d, d ∈ successful_files r →
         d ∈ dispatched_docs_pending_results (run_coordinator r))
    ∧ (∀ d why, (d, why) ∈ failed_files_details r → why ≠ SkippedEmpty →
         d ∉ dispatched_docs_pending_results (run_coordinator r)).
Proof.
  apply (indexing_pending_afterwards (py := AsciiEnv.env) sample_coordinator
           broker_b_then_a None sample_listing).
  apply (bool_decide_unpack _). vm_compute. reflexivity.
Defined.

Lemma indexing_without_broker_witness :
  ∃ r,
    trigger_local_indexing_endpoint (py := AsciiEnv.env)
      (pending_add "a.txt" sample_coordinator) unreachable_broker None
      (Some sample_listing) = Ok r
    ∧ successful_files r = []
    ∧ run_broker r = unreachable_broker
    ∧ dispatched_docs_pending_results (run_coordinator r)
      ⊆ dispatched_docs_pending_results (pending_add "a.txt" sample_coordinator).
Proof.
  apply (indexing_without_broker (py := AsciiEnv.env)
           (pending_add "a.txt" sample_coordinator) unreachable_broker None sample_listing).
  reflexivity.
Defined.

Example indexing_example :
  pending_after
    (trigger_local_indexing_endpoint (py := AsciiEnv.env) sample_coordinator
       broker_b_then_a None (Some sample_listing)) = Some {[ "a.txt" ]}
  ∧ failures_after
      (trigger_local_indexing_endpoint (py := AsciiEnv.env) sample_coordinator
         broker_b_then_a None (Some sample_listing))
    = Some [("b.txt", ErrorReading); ("c.txt", SkippedEmpty)].
Proof. vm_compute. split; reflexivity. Qed.

(** ** The worker-status endpoint, once more *)

Section status_more.
Context {py : PyEnv}.

Lemma worker_status_of_key_unparsable b k :
  unparsable (key_cpu k) = true ∨ unparsable (key_ram k) = true →
  worker_status_of_key b k = Raise ValueError.
Proof.
  unfold worker_status_of_key, unparsable.
  destruct (key_cpu k) as [sc|]; [destruct (py_float sc)|];
    (destruct (key_ram k) as [sr|]; [destruct (py_float sr)|]);
    intros [?|?]; done.
Qed.

Lemma worker_status_of_key_parsable b k :
  unparsable (key_cpu k) = false → unparsable (key_ram k) = false →
  ∃ ws, worker_status_of_key b k = Ok ws ∧ ws_worker_id ws = key_worker_id k
        ∧ ws_queue_length ws
          = Some (llen b ("doc_processing_tasks:" +:+ key_worker_id k)).
Proof.
  unfold worker_status_of_key, unparsable.
  destruct (key_cpu k) as [sc|]; [destruct (py_float sc)|];
    (destruct (key_ram k) as [sr|]; [destruct (py_float sr)|]);
    intros ? ?; try done; eauto.
Qed.

Lemma worker_statuses_raise b keys k :
  k ∈ keys → unparsable (key_cpu k) = true ∨ unparsable (key_ram k) = true →
  ∃ e, worker_statuses b keys = Raise e.
Proof.
  intros Hin Hbad. induction keys as [|k0 keys IH]; [by apply elem_of_nil in Hin|].
  cbn. apply elem_of_cons in Hin as [<-|Hin].
  - rewrite worker_status_of_key_unparsable by done. eauto.
  - destruct (worker_status_of_key b k0); [|eauto].
    destruct (IH Hin) as [e ->]. eauto.
Qed.

Lemma read_load_unparsable cpu ram :
  unparsable cpu = true ∨ unparsable ram = true →
  read_load cpu ram = (100 # 1, 100 # 1)%Q.
Proof.
  unfold read_load, unparsable.
  destruct cpu as [sc|]; [destruct (py_float sc)|];
    (destruct ram as [sr|]; [destruct (py_float sr)|]);
    intros [?|?]; done.
Qed.

(** X18: a status key whose cpu or ram field is no number, while the broker
    is within reach: the worker-status endpoint fails with status 500 for
    all workers, whereas the dispatcher keeps the worker of the key as a
    candidate (when the key is not expired) with load 100 + 100. *)
Theorem malformed_status_field (b : broker) (cached : option redis_client)
    (k : status_key) :
  reachable b = true →
  k ∈ status_keys b →
  unparsable (key_cpu k) = true ∨ unparsable (key_ram k) = true →
  get_workers_status_endpoint b cached = Raise (HTTPException 500)
  ∧ (¬ expired k →
     ∃ c, candidate_of_key b k = Some c ∧ c ∈ candidate_workers b
          ∧ load_metric c = ((100 # 1) + (100 # 1))%Q).
Proof.
  intros Hb Hin Hbad. split.
  - destruct (worker_statuses_raise b _ k Hin Hbad) as [e He].
    unfold get_workers_status_endpoint, workers_status_body, get_publisher_redis_client.
    destruct cached; rewrite Hb; cbn; rewrite He; cbn;
      unfold workers_status_handlers; by destruct (is_RedisError e).
  - intros Hlive. destruct (candidate_of_key b k) as [c|] eqn:Hc.
    + exists c. split; [done|]. split.
      * unfold candidate_workers. apply list_elem_of_omap. eauto.
      * unfold candidate_of_key in Hc.
        destruct ((key_ttl k <? 0) && negb (key_ttl k =? -1)); [done|].
        rewrite read_load_unparsable in Hc by done. by injection Hc as <-.
    + by apply candidate_of_key_None in Hc.
Qed.

Lemma worker_statuses_ok b keys :
  Forall (λ k, unparsable (key_cpu k) = false ∧ unparsable (key_ram k) = false) keys →
  ∃ l, worker_statuses b keys = Ok l
       ∧ ws_worker_id <$> l = key_worker_id <$> keys
       ∧ Forall (λ ws, ws_queue_length ws
                       = Some (llen b ("doc_processing_tasks:" +:+ ws_worker_id ws))) l.
Proof.
  induction 1 as [|k keys [Hc Hr] _ (l & Hl & Hids & Hall)]; [by exists []|].
  destruct (worker_status_of_key_parsable b k Hc Hr) as (ws & Hws & Hid & Hq).
  exists (ws :: l). cbn. rewrite Hws, Hl. split; [done|]. split.
  - by rewrite Hid, Hids.
  - constructor; [by rewrite Hid|done].
Qed.

Lemma ltb_may_precede_le (x y : string) :
  may_precede String.ltb x y ↔ String.le x y.
Proof.
  unfold may_precede, String.le, String.ltb, String.leb.
  rewrite (String.compare_antisym x y).
  destruct (String.compare y x); cbn; split; done.
Qed.

Lemma ltb_asym (x y : string) : String.ltb x y = true → String.ltb y x = false.
Proof.
  unfold String.ltb. rewrite (String.compare_antisym y x).
  by destruct (String.compare x y).
Qed.

(** X19: while the broker is within reach and every cpu and ram field that
    is present is a number, the worker-status endpoint returns one status
    for each status key, expired or not, in the order of the worker ids,
    each with the length of the task list of its worker. *)
Theorem worker_statuses_sorted_by_id (b : broker) (cached : option redis_client) :
  reachable b = true →
  Forall (λ k, unparsable (key_cpu k) = false ∧ unparsable (key_ram k) = false)
         (status_keys b) →
  ∃ l,
    get_workers_status_endpoint b cached = Ok l
    ∧ ws_worker_id <$> l ≡ₚ key_worker_id <$> status_keys b
    ∧ StronglySorted (λ x y, String.le (ws_worker_id x) (ws_worker_id y)) l
    ∧ Forall (λ ws, ws_queue_length ws
                    = Some (llen b ("doc_processing_tasks:" +:+ ws_worker_id ws))) l.
Proof.
  intros Hb Hparse.
  destruct (worker_statuses_ok b _ Hparse) as (l & Hl & Hids & Hall).
  exists (PySort.sort (λ x y, String.ltb (ws_worker_id x) (ws_worker_id y)) l).
  split_and!.
  - unfold get_workers_status_endpoint, workers_status_body, get_publisher_redis_client.
    destruct cached; rewrite Hb; cbn; by rewrite Hl.
  - by rewrite sort_perm, Hids.
  - eapply StronglySorted_weaken; [|apply sort_sorted].
    + intros x y Hxy. by apply ltb_may_precede_le.
    + intros x y. apply ltb_asym.
    + intros x y z Hxy Hyz. unfold may_precede in *.
      apply ltb_may_precede_le. etrans; by apply ltb_may_precede_le.
  - by rewrite sort_perm.
Qed.

End status_more.

Lemma malformed_status_field_witness :
  get_workers_status_endpoint (py := AsciiEnv.env) broker_malformed None
  = Raise (HTTPException 500)
  ∧ (¬ expired (live_key "worker-x" "n/a" "10") →
     ∃ c, candidate_of_key (py := AsciiEnv.env) broker_malformed
            (live_key "worker-x" "n/a" "10") = Some c
          ∧ c ∈ candidate_workers (py := AsciiEnv.env) broker_malformed
          ∧ load_metric c = ((100 # 1) + (100 # 1))%Q).
Proof.
  apply (malformed_status_field (py := AsciiEnv.env) broker_malformed None
           (live_key "worker-x" "n/a" "10")).
  - reflexivity.
  - left.
  - left. vm_compute. reflexivity.
Defined.

Lemma worker_statuses_sorted_by_id_witness :
  ∃ l,
    get_workers_status_endpoint (py := AsciiEnv.env) broker_b_then_a None = Ok l
    ∧ ws_worker_id <$> l ≡ₚ key_worker_id <$> status_keys broker_b_then_a
    ∧ StronglySorted (λ x y, String.le (ws_worker_id x) (ws_worker_id y)) l
    ∧ Forall (λ ws, ws_queue_length ws
                    = Some (llen broker_b_then_a
                              ("doc_processing_tasks:" +:+ ws_worker_id ws))) l.
Proof.
  apply (worker_statuses_sorted_by_id (py := AsciiEnv.env) broker_b_then_a None).
  - reflexivity.
  - repeat constructor; vm_compute; reflexivity.
Defined.

Example workers_status_example :
  match get_workers_status_endpoint (py := AsciiEnv.env) broker_abc None with
  | Ok l => map (λ ws, (ws_worker_id ws, ws_status_ttl_seconds ws)) l
  | Raise _ => []
  end = [("A", Some 6); ("B", Some 6); ("C", None)].
Proof. vm_compute. reflexivity. Qed.

(** ** The checkpoint *)


(** ** Normalization *)

Section normalize_more.
Context {py : PyEnv}.


End normalize_more.

Example normalize_text_example :
  TextUtils.normalize_text (py := AsciiEnv.env) "The quick brown Foxes, 42 of them" "klingon"
  = ["quick"; "brown"; "foxe"; "them"].
Proof. vm_compute. reflexivity. Qed.
